(** * The AppSync / Aurora Serverless walkthrough of amplify-category-api

    A shallow embedding of

    - [appSync-rds-walkthrough.js] ([serviceWalkthrough], [selectCluster],
      [getSecretStoreArn], [selectDatabase], [promptWalkthroughQuestion],
      [getAwsClient]), and
    - the default-values helper [getAllDefaults],

    followed by the properties of the walkthrough.

    JavaScript values are typed the way the code reads them: a value that may
    be [undefined] is an [option], an object used as a dictionary is an
    association list in [Object.keys] order, a [Map] is an association list in
    insertion order.  The host context, the prompt library and the provider
    SDK are collaborators: their answers are the fields of a [World], every
    call to them is an [event] of the run's trace. *)

From Stdlib Require Import String Ascii List ZArith Bool Lia.
Import ListNotations.
Local Open Scope string_scope.
Local Open Scope list_scope.

(** ** JavaScript primitives used by the two files *)

Module JS.

(** [s.startsWith(p)] *)
Fixpoint startsWith (s p : string) {struct p} : bool :=
  match p with
  | EmptyString => true
  | String c p' =>
      match s with
      | EmptyString => false
      | String d s' => Ascii.eqb d c && startsWith s' p'
      end
  end.

(** [s.includes(sub)]; also [/sub/.test(s)] for a pattern without
    metacharacters. *)
Fixpoint includes (s sub : string) : bool :=
  startsWith s sub ||
  match s with
  | EmptyString => false
  | String _ s' => includes s' sub
  end.

(** [s.split(sep)] for a one-character separator: never empty. *)
Fixpoint split (sep : ascii) (s : string) : string * list string :=
  match s with
  | EmptyString => (EmptyString, [])
  | String c s' =>
      let (h, t) := split sep s' in
      if Ascii.eqb c sep then (EmptyString, h :: t) else (String c h, t)
  end.

(** Truthiness of a value that is a string or [undefined]. *)
Definition truthy (v : option string) : bool :=
  match v with
  | Some (String _ _) => true
  | _ => false
  end.

(** A string-or-undefined value inside a template literal. *)
Definition interpolate (v : option string) : string :=
  match v with
  | Some s => s
  | None => "undefined"
  end.

(** [arr.includes(v)] on an array of strings, [v] a string or undefined. *)
Definition arrayIncludes (arr : list string) (v : option string) : bool :=
  match v with
  | Some s => existsb (String.eqb s) arr
  | None => false
  end.

(** A plain object read as a dictionary: own keys in [Object.keys] order. *)
Definition Object (V : Type) : Type := list (string * V).

Definition keys {V} (o : Object V) : list string := map fst o.

Fixpoint prop {V} (o : Object V) (k : string) : option V :=
  match o with
  | [] => None
  | (k', v) :: o' => if String.eqb k' k then Some v else prop o' k
  end.

(** [Map]: insertion ordered, [set] on a present key keeps its position. *)
Definition Map (V : Type) : Type := list (string * V).

Fixpoint set {V} (m : Map V) (k : string) (v : V) : Map V :=
  match m with
  | [] => [(k, v)]
  | (k', v') :: m' =>
      if String.eqb k' k then (k', v) :: m' else (k', v') :: set m' k v
  end.

Definition get {V} (m : Map V) (k : option string) : option V :=
  match k with
  | Some k => prop m k
  | None => None
  end.

Definition size {V} (m : Map V) : nat := List.length m.

End JS.

(** ** Project metadata ([amplify-meta.json]) *)

Module Meta.

Record CloudFormationMeta := { Region : option string }.
Record Providers := { awscloudformation : option CloudFormationMeta }.

(** A resource of a category; only its [service] tag is read. *)
Record Resource := { service : option string }.

(** The provider block and the [api] category, each possibly absent. *)
Record AmplifyMeta := {
  providers : option Providers;
  api : option (JS.Object Resource)
}.

End Meta.

(** ** Default values ([getAllDefaults]) *)

Module Defaults.
Import Meta.

Record Project := { amplifyMeta : option AmplifyMeta }.

(** A CloudFormation parameter reference, [{ Ref: name }]. *)
Record RefObject := { Ref : string }.

Record AllDefaults := {
  resourceName : string;
  region : option string;
  convertPolicyName : string;
  authRoleName : RefObject;
  unauthRoleName : RefObject
}.

(** Reading a property of [undefined]. *)
Inductive TypeError := CannotReadProperty (name : string).

(** [const [shortId] = uuid.split('-')] *)
Definition shortIdOf (uuid : string) : string := fst (JS.split "-"%char uuid).

(** [uuid_v4] is the value drawn by [uuid.v4()]. *)
Definition getAllDefaults (uuid_v4 : string) (project : Project)
  : TypeError + AllDefaults :=
  match amplifyMeta project with
  | None => inl (CannotReadProperty "providers")
  | Some meta =>
    match providers meta with
    | None => inl (CannotReadProperty "awscloudformation")
    | Some p =>
      match awscloudformation p with
      | None => inl (CannotReadProperty "Region")
      | Some cfn =>
          let region := Region cfn in
          let shortId := shortIdOf uuid_v4 in
          let authRoleName := {| Ref := "AuthRoleName" |} in
          let unauthRoleName := {| Ref := "UnauthRoleName" |} in
          inr {| resourceName := shortId;
                 region := region;
                 convertPolicyName := "Policy" ++ shortId;
                 authRoleName := authRoleName;
                 unauthRoleName := unauthRoleName |}
      end
    end
  end.

End Defaults.

(** ** The walkthrough ([appSync-rds-walkthrough.js]) *)

Module Walkthrough.
Import Meta.

Definition category : string := "api".
Definition providerName : string := "awscloudformation".

(** *** Data *)

(** A thrown value: [err.code] and [err.message]. *)
Record JsError := { code : option string; message : string }.

(** The runtime's error for reading a property of [undefined]. *)
Definition TypeError (property : string) : JsError :=
  {| code := None;
     message := "Cannot read properties of undefined (reading '" ++ property ++ "')" |}.

(** The two telemetry error classes of amplify-cli-core the file builds. *)
Inductive ErrorClass :=
| ResourceDoesNotExistError
| ResourceCredentialsNotFoundError.

(** An entry of [datasourceMetadata.inputs]. *)
Module Input.
Record t := { type : string; key : string; question : string }.
End Input.

Record DatasourceMetadata := {
  inputs : list Input.t;
  availableRegions : list string
}.

(** The question object handed to [inquirer.prompt]. *)
Module Question.
Record t := {
  type : string;
  name : string;
  message : string;
  choices : list (option string)
}.
End Question.

Record DBCluster := {
  DBClusterIdentifier : string;
  DBClusterArn : string;
  DbClusterResourceId : string;
  Engine : string;
  EngineMode : string
}.

Record SecretListEntry := { Name : string; ARN : string }.

Module ListSecretsRequest.
Record t := { MaxResults : Z; NextToken : option string }.
End ListSecretsRequest.

Module ListSecretsResponse.
Record t := { SecretList : list SecretListEntry; NextToken : option string }.
End ListSecretsResponse.

(** A cell of a data-API row; a row is an array of cells. *)
Record Field := { stringValue : option string }.
Definition Record_ : Type := list Field.

(** [DataApiParams] of graphql-relational-schema-transformer: the fields
    the walkthrough assigns. *)
Record DataApiParams := {
  secretArn : option string;
  resourceArn : string;
  sql : string
}.

(** The configured SDK object: [AWS.config.region]. *)
Record AwsClient := { config_region : option string }.

Record ClusterSelection := {
  selectedClusterArn : string;
  clusterResourceId : string
}.

Record WalkthroughResult := {
  region : option string;
  dbClusterArn : string;
  secretStoreArn : option string;
  databaseName : option string;
  resourceName : option string
}.

(** The host context: what [context.amplify.getProjectMeta()] returns and
    the one data property the walkthrough touches. *)
Record Context := {
  projectMeta : option AmplifyMeta;
  isPostgres : option bool
}.

(** *** Collaborators and effects *)

(** The answers of the prompt library and of the provider SDK. *)
Record World := {
  inquirer_prompt : Question.t -> JS.Object string;
  getConfiguredAWSClient : string -> string -> JsError + AwsClient;
  describeDBClusters : AwsClient -> option string -> JsError + list DBCluster;
  listSecrets : AwsClient -> ListSecretsRequest.t -> JsError + ListSecretsResponse.t;
  executeStatement : AwsClient -> DataApiParams -> JsError + list Record_
}.

Inductive event :=
| PrintError (msg : string)
| EmitError (cls : ErrorClass) (msg : string)
| Prompt (q : Question.t)
| SpinnerStart (text : string)
| SpinnerSucceed (text : string)
| SpinnerFail (text : string)
| GetConfiguredAWSClient (service action : string)
| ConfigUpdate (region : option string)
| DescribeDBClusters (aws : AwsClient) (id : option string)
| ListSecrets (aws : AwsClient) (params : ListSecretsRequest.t)
| ExecuteStatement (aws : AwsClient) (params : DataApiParams).

(** Calls that reach the provider plugin or the SDK. *)
Definition isProviderCall (e : event) : bool :=
  match e with
  | GetConfiguredAWSClient _ _ | ConfigUpdate _ | DescribeDBClusters _ _
  | ListSecrets _ _ | ExecuteStatement _ _ => true
  | _ => false
  end.

Definition isPrompt (e : event) : bool :=
  match e with Prompt _ => true | _ => false end.

Definition isListSecrets (e : event) : bool :=
  match e with ListSecrets _ _ => true | _ => false end.

(** How a run ends.  [Running] is a loop that has used up the model's
    iteration budget and is still going. *)
Inductive Outcome (A : Type) :=
| Returned (a : A)
| Exited (exitCode : Z)
| Thrown (err : JsError)
| Running.
Arguments Returned {A} a.
Arguments Exited {A} exitCode.
Arguments Thrown {A} err.
Arguments Running {A}.

Record Run (A : Type) := {
  outcome : Outcome A;
  context : Context;
  trace : list event
}.
Arguments outcome {A} r.
Arguments context {A} r.
Arguments trace {A} r.

(** A computation reads and writes the host context and emits events. *)
Definition M (A : Type) : Type := Context -> Run A.

Definition ret {A} (a : A) : M A :=
  fun c => {| outcome := Returned a; context := c; trace := [] |}.

(** The events [t] happened before the run [r]. *)
Definition after {A} (t : list event) (r : Run A) : Run A :=
  match r with
  | {| outcome := o; context := c; trace := t' |} =>
      {| outcome := o; context := c; trace := t ++ t' |}
  end.

Definition bind {A B} (m : M A) (f : A -> M B) : M B :=
  fun c =>
    match m c with
    | {| outcome := Returned a; context := c'; trace := t |} => after t (f a c')
    | {| outcome := Exited z; context := c'; trace := t |} =>
        {| outcome := Exited z; context := c'; trace := t |}
    | {| outcome := Thrown e; context := c'; trace := t |} =>
        {| outcome := Thrown e; context := c'; trace := t |}
    | {| outcome := Running; context := c'; trace := t |} =>
        {| outcome := Running; context := c'; trace := t |}
    end.

Notation "x <- m ;; k" := (bind m (fun x => k))
  (at level 61, m at next level, right associativity).
Notation "m ;; k" := (bind m (fun _ => k))
  (at level 61, right associativity).

Definition emit (e : event) : M unit :=
  fun c => {| outcome := Returned tt; context := c; trace := [e] |}.

Definition throw {A} (e : JsError) : M A :=
  fun c => {| outcome := Thrown e; context := c; trace := [] |}.

Definition running {A} : M A :=
  fun c => {| outcome := Running; context := c; trace := [] |}.

Definition when (b : bool) (m : M unit) : M unit :=
  if b then m else ret tt.

(** [await p] for a promise that resolves or rejects. *)
Definition await {A} (p : JsError + A) : M A :=
  match p with
  | inl e => throw e
  | inr a => ret a
  end.

(** Runs [m]; a value thrown by it is handed over instead of propagating. *)
Definition attempt {A} (m : M A) : M (JsError + A) :=
  fun c =>
    match m c with
    | {| outcome := Returned a; context := c'; trace := t |} =>
        {| outcome := Returned (inr a); context := c'; trace := t |}
    | {| outcome := Thrown e; context := c'; trace := t |} =>
        {| outcome := Returned (inl e); context := c'; trace := t |}
    | {| outcome := Exited z; context := c'; trace := t |} =>
        {| outcome := Exited z; context := c'; trace := t |}
    | {| outcome := Running; context := c'; trace := t |} =>
        {| outcome := Running; context := c'; trace := t |}
    end.

(** Modelled from the spec: [exitOnNextTick] of amplify-cli-core is not
    among the sources.  The spec calls it an immediate-terminate primitive:
    the process ends at the call with the given code, no exception is
    raised, and nothing after the call runs. *)
Definition exitOnNextTick {A} (exitCode : Z) : M A :=
  fun c => {| outcome := Exited exitCode; context := c; trace := [] |}.

(** [context.amplify.getProjectMeta()] *)
Definition getProjectMeta : M (option AmplifyMeta) :=
  fun c => {| outcome := Returned (projectMeta c); context := c; trace := [] |}.

(** [context.isPostgres = b] *)
Definition setIsPostgres (b : bool) : M unit :=
  fun c => {| outcome := Returned tt;
              context := {| projectMeta := projectMeta c; isPostgres := Some b |};
              trace := [] |}.

(** [context.isPostgres] read as a condition. *)
Definition readIsPostgres : M bool :=
  fun c => {| outcome := Returned (match isPostgres c with Some b => b | None => false end);
              context := c; trace := [] |}.

Definition context_print_error (msg : string) : M unit := emit (PrintError msg).

Definition context_usageData_emitError (cls : ErrorClass) (msg : string) : M unit :=
  emit (EmitError cls msg).

(** *** The functions of the file *)

Section Functions.

Variable w : World.

(** [inquirer.prompt(question)] *)
Definition inquirer_prompt_call (question : Question.t) : M (JS.Object string) :=
  emit (Prompt question) ;;
  ret (inquirer_prompt w question).

(** [provider.getConfiguredAWSClient(context, service, action)] *)
Definition getConfiguredAWSClient_call (service action : string) : M AwsClient :=
  emit (GetConfiguredAWSClient service action) ;;
  await (getConfiguredAWSClient w service action).

(** [AWS.config.update({ region })] *)
Definition AWS_config_update (AWS : AwsClient) (region : option string) : M AwsClient :=
  emit (ConfigUpdate region) ;;
  ret {| config_region := region |}.

(** [new AWS.RDS().describeDBClusters(params).promise()] *)
Definition RDS_describeDBClusters (AWS : AwsClient) (id : option string)
  : M (list DBCluster) :=
  emit (DescribeDBClusters AWS id) ;;
  await (describeDBClusters w AWS id).

(** [SecretsManager.listSecrets(params).promise()] *)
Definition SecretsManager_listSecrets (AWS : AwsClient) (params : ListSecretsRequest.t)
  : M ListSecretsResponse.t :=
  emit (ListSecrets AWS params) ;;
  await (listSecrets w AWS params).

(** [DataApi.executeStatement(params).promise()] *)
Definition DataApi_executeStatement (AWS : AwsClient) (params : DataApiParams)
  : M (list Record_) :=
  emit (ExecuteStatement AWS params) ;;
  await (executeStatement w AWS params).

Definition promptWalkthroughQuestion (inputs : list Input.t) (questionNumber : nat)
    (choicesList : list (option string)) : M (option string) :=
  match nth_error inputs questionNumber with
  | None => throw (TypeError "type")
  | Some input =>
      let question :=
        {| Question.type := Input.type input;
           Question.name := Input.key input;
           Question.message := Input.question input;
           Question.choices := choicesList |} in
      answer <- inquirer_prompt_call question ;;
      ret (JS.prop answer (Input.key input))
  end.

Definition getAwsClient (action : string) : M AwsClient :=
  getConfiguredAWSClient_call "aurora-serverless" action.

(** **** [selectCluster] *)

(** The loop filling the [clusters] map. *)
Definition serverlessClusters (rawClusters : list DBCluster) : JS.Map DBCluster :=
  fold_left
    (fun clusters c =>
       if String.eqb (EngineMode c) "serverless"
       then JS.set clusters (DBClusterIdentifier c) c
       else clusters)
    rawClusters [].

Definition noClustersMessage : string :=
  "No properly configured Aurora Serverless clusters found.".

Definition selectCluster (inputs : list Input.t) (AWS : AwsClient) : M ClusterSelection :=
  rawClusters <- RDS_describeDBClusters AWS None ;;
  let clusters := serverlessClusters rawClusters in
  if Nat.ltb 0 (JS.size clusters) then
    clusterIdentifier <-
      promptWalkthroughQuestion inputs 1 (map Some (JS.keys clusters)) ;;
    match JS.get clusters clusterIdentifier with
    | None => throw (TypeError "DBClusterArn")
    | Some selectedCluster =>
        ret {| selectedClusterArn := DBClusterArn selectedCluster;
               clusterResourceId := DbClusterResourceId selectedCluster |}
    end
  else
    let errMessage := noClustersMessage in
    context_print_error errMessage ;;
    context_usageData_emitError ResourceDoesNotExistError errMessage ;;
    exitOnNextTick 0.

(** **** [getSecretStoreArn] *)

(** The [while (token)] loop; [budget] bounds the number of further pages
    the model follows. *)
Fixpoint listRemainingSecrets (budget : nat) (AWS : AwsClient)
    (rawSecrets : list SecretListEntry) (token : option string)
  : M (list SecretListEntry) :=
  if JS.truthy token then
    match budget with
    | O => running
    | S budget' =>
        let params := {| ListSecretsRequest.MaxResults := 20;
                         ListSecretsRequest.NextToken := token |} in
        tempSecretsResult <- SecretsManager_listSecrets AWS params ;;
        listRemainingSecrets budget' AWS
          (rawSecrets ++ ListSecretsResponse.SecretList tempSecretsResult)
          (ListSecretsResponse.NextToken tempSecretsResult)
    end
  else ret rawSecrets.

(** Lines 109-126: the first call and the loop. *)
Definition listAllSecrets (budget : nat) (AWS : AwsClient) : M (list SecretListEntry) :=
  let params := {| ListSecretsRequest.MaxResults := 20;
                   ListSecretsRequest.NextToken := None |} in
  listSecretsResult <- SecretsManager_listSecrets AWS params ;;
  listRemainingSecrets budget AWS
    (ListSecretsResponse.SecretList listSecretsResult)
    (ListSecretsResponse.NextToken listSecretsResult).

Definition secretNamePrefix (clusterResourceId : string) : string :=
  "rds-db-credentials/" ++ clusterResourceId.

(** The [for] loop with its [break]: the selected ARN, if any, and the
    [secrets] map as filled when the loop stops. *)
Fixpoint scanSecrets (clusterResourceId : string) (rawSecrets : list SecretListEntry)
    (secrets : JS.Map string) : option string * JS.Map string :=
  match rawSecrets with
  | [] => (None, secrets)
  | s :: rest =>
      if JS.startsWith (Name s) (secretNamePrefix clusterResourceId)
      then (Some (ARN s), secrets)
      else scanSecrets clusterResourceId rest (JS.set secrets (Name s) (ARN s))
  end.

Definition noSecretsMessage : string :=
  "No RDS access credentials found in the AWS Secrect Manager.".

(** Lines 128-157, on the merged listing. *)
Definition chooseSecret (inputs : list Input.t) (clusterResourceId : string)
    (rawSecrets : list SecretListEntry) : M (option string) :=
  let (selectedSecretArn, secrets) := scanSecrets clusterResourceId rawSecrets [] in
  if negb (JS.truthy selectedSecretArn) then
    if Nat.ltb 0 (JS.size secrets) then
      selectedSecretName <-
        promptWalkthroughQuestion inputs 2 (map Some (JS.keys secrets)) ;;
      ret (JS.get secrets selectedSecretName)
    else
      let errMessage := noSecretsMessage in
      context_print_error errMessage ;;
      context_usageData_emitError ResourceCredentialsNotFoundError errMessage ;;
      exitOnNextTick 0
  else ret selectedSecretArn.

Definition getSecretStoreArn (budget : nat) (inputs : list Input.t)
    (clusterResourceId : string) (AWS : AwsClient) : M (option string) :=
  rawSecrets <- listAllSecrets budget AWS ;;
  chooseSecret inputs clusterResourceId rawSecrets.

(** **** [selectDatabase] *)

Definition postgresQuery : string := "SELECT datname FROM pg_database;".
Definition showDatabases : string := "show databases".

(** The array the source calls [validRecordValues]: the names left out. *)
Definition validRecordValues (isPostgres : bool) : list string :=
  if isPostgres
  then ["rdsadmin"; "postgres"; "template1"; "template0"]
  else ["information_schema"; "performance_schema"; "mysql"].

(** The [for ... of records] loop.  [databaseList] is declared outside the
    [try], so what was pushed before a throw stays in it: the loop gives
    back the list and the thrown value, if any. *)
Fixpoint pushRecords (valid : list string) (records : list Record_)
    (databaseList : list (option string)) : list (option string) * option JsError :=
  match records with
  | [] => (databaseList, None)
  | record :: rest =>
      match record with
      | [] => (databaseList, Some (TypeError "stringValue"))
      | cell :: _ =>
          let recordValue := stringValue cell in
          if negb (JS.arrayIncludes valid recordValue)
          then pushRecords valid rest (databaseList ++ [recordValue])
          else pushRecords valid rest databaseList
      end
  end.

Definition isAccessDenied (err : JsError) : bool :=
  match code err with
  | Some c => String.eqb c "BadRequestException"
  | None => false
  end
  && JS.includes (message err) "Access denied for user".

Definition remediationMessage (secretArn : option string) : string :=
  "Ensure that '" ++ JS.interpolate secretArn ++ "' contains your database credentials. "
  ++ "Please note that Aurora Serverless does not support IAM database authentication.".

(** The [catch (err)] block. *)
Definition catchBlock (secretArn : option string) (err : JsError) : M unit :=
  emit (SpinnerFail (message err)) ;;
  when (isAccessDenied err)
    (let msg := remediationMessage secretArn in
     context_print_error msg).

Definition noDatabasesMessage : string := "No properly configured databases found.".

Definition selectDatabase (inputs : list Input.t) (clusterArn : string)
    (secretArn : option string) (AWS : AwsClient) : M (option string) :=
  dbCluster <- RDS_describeDBClusters AWS (Some clusterArn) ;;
  setIsPostgres (existsb (fun cluster => JS.includes (Engine cluster) "postgres") dbCluster) ;;
  isPg <- readIsPostgres ;;
  let params := {| secretArn := secretArn;
                   resourceArn := clusterArn;
                   sql := if isPg then postgresQuery else showDatabases |} in
  emit (SpinnerStart "Fetching Aurora Serverless cluster...") ;;
  dataApiResult <- attempt (DataApi_executeStatement AWS params) ;;
  databaseList <-
    match dataApiResult with
    | inr records =>
        isPg' <- readIsPostgres ;;
        match pushRecords (validRecordValues isPg') records [] with
        | (databaseList, None) =>
            emit (SpinnerSucceed "Fetched Aurora Serverless cluster.") ;;
            ret databaseList
        | (databaseList, Some err) =>
            catchBlock secretArn err ;;
            ret databaseList
        end
    | inl err =>
        catchBlock secretArn err ;;
        ret []
    end ;;
  if Nat.ltb 0 (List.length databaseList) then
    promptWalkthroughQuestion inputs 3 databaseList
  else
    let errMessage := noDatabasesMessage in
    context_print_error errMessage ;;
    context_usageData_emitError ResourceDoesNotExistError errMessage ;;
    exitOnNextTick 0.

(** **** [serviceWalkthrough] *)

(** The double-quote character inside the message. *)
Definition dquote : string := String (Ascii.ascii_of_nat 34) EmptyString.

Definition noApiMessage : string :=
  "You must create an AppSync API in your project before adding a graphql datasource. "
  ++ "Please use " ++ dquote ++ "amplify api add" ++ dquote ++ " to create the API.".

(** The condition of the first [if]. *)
Definition categoryMissing (amplifyMeta : option AmplifyMeta) : bool :=
  match amplifyMeta with
  | None => true
  | Some meta =>
      match api meta with
      | None => true
      | Some resources => Nat.eqb (List.length (JS.keys resources)) 0
      end
  end.

Definition serviceIs (r : Resource) (s : string) : bool :=
  match service r with
  | Some s' => String.eqb s' s
  | None => false
  end.

(** The loop over [apis] with its [break]. *)
Fixpoint findAppSyncApi (resources : JS.Object Resource) (apis : list string)
  : JsError + option string :=
  match apis with
  | [] => inr None
  | name :: rest =>
      match JS.prop resources name with
      | None => inl (TypeError "service")
      | Some r =>
          if serviceIs r "AppSync" then inr (Some name)
          else findAppSyncApi resources rest
      end
  end.

(** Lines 11-40: the precondition check; gives the AppSync API's name. *)
Definition findApi : M (option string) :=
  amplifyMeta <- getProjectMeta ;;
  when (categoryMissing amplifyMeta)
    (let errMessage := noApiMessage in
     context_print_error errMessage ;;
     context_usageData_emitError ResourceDoesNotExistError errMessage ;;
     exitOnNextTick 0) ;;
  resources <-
    match amplifyMeta with
    | None => throw (TypeError category)
    | Some meta =>
        match api meta with
        | None => throw (TypeError "keys")
        | Some resources => ret resources
        end
    end ;;
  let apis := JS.keys resources in
  appSyncApi <- await (findAppSyncApi resources apis) ;;
  when (negb (JS.truthy appSyncApi))
    (let errMessage := noApiMessage in
     context_print_error errMessage ;;
     context_usageData_emitError ResourceDoesNotExistError errMessage ;;
     exitOnNextTick 0) ;;
  ret appSyncApi.

Definition serviceWalkthrough (budget : nat) (defaultValuesFilename : string)
    (datasourceMetadata : DatasourceMetadata) : M WalkthroughResult :=
  appSyncApi <- findApi ;;
  let inputs := inputs datasourceMetadata in
  let availableRegions := availableRegions datasourceMetadata in
  selectedRegion <- promptWalkthroughQuestion inputs 0 (map Some availableRegions) ;;
  AWS <- getAwsClient "list" ;;
  AWS <- AWS_config_update AWS selectedRegion ;;
  cluster <- selectCluster inputs AWS ;;
  selectedSecretArn <-
    getSecretStoreArn budget inputs (clusterResourceId cluster) AWS ;;
  selectedDatabase <-
    selectDatabase inputs (selectedClusterArn cluster) selectedSecretArn AWS ;;
  ret {| region := selectedRegion;
         dbClusterArn := selectedClusterArn cluster;
         secretStoreArn := selectedSecretArn;
         databaseName := selectedDatabase;
         resourceName := appSyncApi |}.

End Functions.

(** *** Notions the properties are stated with *)

(** The names of the API resources tagged with a service, in key order. *)
Definition taggedWith (svc : string) (amplifyMeta : option AmplifyMeta) : list string :=
  match amplifyMeta with
  | None => []
  | Some meta =>
      match api meta with
      | None => []
      | Some resources =>
          JS.keys (filter (fun kr => serviceIs (snd kr) svc) resources)
      end
  end.

(** The keys of the [api] category, none when it is absent. *)
Definition apiKeys (amplifyMeta : option AmplifyMeta) : list string :=
  match amplifyMeta with
  | None => []
  | Some meta =>
      match api meta with
      | None => []
      | Some resources => JS.keys resources
      end
  end.

(** The provider answers a listing that starts with [token] by the pages
    [pages], in this order: every page but the last carries a token, which
    the next request sends back; the last page carries none. *)
Fixpoint servesPages (w : World) (AWS : AwsClient) (token : option string)
    (pages : list ListSecretsResponse.t) : Prop :=
  match pages with
  | [] => False
  | page :: rest =>
      listSecrets w AWS {| ListSecretsRequest.MaxResults := 20;
                           ListSecretsRequest.NextToken := token |} = inr page
      /\ match rest with
         | [] => JS.truthy (ListSecretsResponse.NextToken page) = false
         | _ :: _ =>
             JS.truthy (ListSecretsResponse.NextToken page) = true
             /\ servesPages w AWS (ListSecretsResponse.NextToken page) rest
         end
  end.

(** The requests a listing of these pages consists of. *)
Fixpoint pageRequests (AWS : AwsClient) (token : option string)
    (pages : list ListSecretsResponse.t) : list event :=
  match pages with
  | [] => []
  | page :: rest =>
      ListSecrets AWS {| ListSecretsRequest.MaxResults := 20;
                         ListSecretsRequest.NextToken := token |}
      :: pageRequests AWS (ListSecretsResponse.NextToken page) rest
  end.

Definition mergedSecrets (pages : list ListSecretsResponse.t) : list SecretListEntry :=
  concat (map ListSecretsResponse.SecretList pages).

(** [record[0].stringValue] of a row that has a first cell. *)
Definition firstValue (record : Record_) : option string :=
  match record with
  | cell :: _ => stringValue cell
  | [] => None
  end.

Definition hasFirstCell (record : Record_) : bool :=
  match record with
  | _ :: _ => true
  | [] => false
  end.

(** The engine classification of a described cluster list. *)
Definition classify (dbCluster : list DBCluster) : bool :=
  existsb (fun cluster => JS.includes (Engine cluster) "postgres") dbCluster.

(** The parameters [selectDatabase] builds for a classification. *)
Definition statementParams (clusterArn : string) (secretArn : option string)
    (isPg : bool) : DataApiParams :=
  {| secretArn := secretArn;
     resourceArn := clusterArn;
     sql := if isPg then postgresQuery else showDatabases |}.

(** The names that stay after the reserved ones are left out. *)
Definition candidates (isPg : bool) (records : list Record_) : list (option string) :=
  filter (fun v => negb (JS.arrayIncludes (validRecordValues isPg) v))
         (map firstValue records).

Definition questionFor (input : Input.t) (choicesList : list (option string)) : Question.t :=
  {| Question.type := Input.type input;
     Question.name := Input.key input;
     Question.message := Input.question input;
     Question.choices := choicesList |}.

(** The event of prompting with entry [n] of [inputs], when there is one. *)
Definition promptEvents (inputs : list Input.t) (n : nat)
    (choicesList : list (option string)) : list event :=
  match nth_error inputs n with
  | Some input => [Prompt (questionFor input choicesList)]
  | None => []
  end.

(** The context after [context.isPostgres = b]. *)
Definition withIsPostgres (b : bool) (c : Context) : Context :=
  {| projectMeta := projectMeta c; isPostgres := Some b |}.

(** The events of the standard terminate sequence. *)
Definition reportEvents (cls : ErrorClass) (msg : string) : list event :=
  [PrintError msg; EmitError cls msg].

(** The run of a precondition check that finds no AppSync API. *)
Definition untaggedRun (ctx : Context) : Run (option string) :=
  {| outcome := Exited 0;
     context := ctx;
     trace := reportEvents ResourceDoesNotExistError noApiMessage |}.

(** No run of [m] emits an event satisfying [p]. *)
Definition never {A} (p : event -> bool) (m : M A) : Prop :=
  forall c, existsb p (trace (m c)) = false.

(** No run of [m] returns to its caller. *)
Definition stops {A} (m : M A) : Prop :=
  forall c a, outcome (m c) <> Returned a.

(** No run of [m] changes the host context. *)
Definition preserves {A} (m : M A) : Prop :=
  forall c, context (m c) = c.

(** Every run of [m] leaves the project metadata alone and changes the
    context, if at all, by setting [isPostgres]. *)
Definition touchesOnlyIsPostgres {A} (m : M A) : Prop :=
  forall c,
    projectMeta (context (m c)) = projectMeta c
    /\ (context (m c) = c \/ exists b, isPostgres (context (m c)) = Some b).

(** *** Notions for the properties of whole runs *)

(** The client through which an SDK call is made. *)
Definition sdkClient (e : event) : option AwsClient :=
  match e with
  | DescribeDBClusters aws _ | ListSecrets aws _ | ExecuteStatement aws _ => Some aws
  | _ => None
  end.

(** An event that names a region names [region]: a client configuration
    sets it, an SDK call goes through a client configured with it. *)
Definition inRegion (region : option string) (e : event) : Prop :=
  match e with
  | ConfigUpdate r => r = region
  | DescribeDBClusters aws _ | ListSecrets aws _ | ExecuteStatement aws _ =>
      config_region aws = region
  | _ => True
  end.

(** Every event of every run of [m] satisfies [P]. *)
Definition always {A} (P : event -> Prop) (m : M A) : Prop :=
  forall c e, In e (trace (m c)) -> P e.

(** The four ways the walkthrough reports and exits. *)
Definition exitReports : list (ErrorClass * string) :=
  [ (ResourceDoesNotExistError, noApiMessage);
    (ResourceDoesNotExistError, noClustersMessage);
    (ResourceCredentialsNotFoundError, noSecretsMessage);
    (ResourceDoesNotExistError, noDatabasesMessage) ].

(** A run that exits does so with code 0, right after printing and
    emitting one of the four reports. *)
Definition exitReported {A} (r : Run A) : Prop :=
  forall z, outcome r = Exited z ->
    z = 0%Z
    /\ exists before cls msg,
         In (cls, msg) exitReports
         /\ trace r = before ++ reportEvents cls msg.

Definition reportsExits {A} (m : M A) : Prop :=
  forall c, exitReported (m c).

(** The number of prompts a run shows. *)
Definition promptCount {A} (r : Run A) : nat :=
  List.length (filter isPrompt (trace r)).

(** Every run of [m] shows at most [hi] prompts, and at least [lo] when it
    returns. *)
Definition promptsBetween {A} (lo hi : nat) (m : M A) : Prop :=
  forall c,
    promptCount (m c) <= hi
    /\ forall a, outcome (m c) = Returned a -> lo <= promptCount (m c).

(** A call of the database step concerns the cluster [clusterArn] and the
    secret [secretArn]. *)
Definition concerns (clusterArn : string) (secretArn : option string) (e : event)
  : Prop :=
  match e with
  | ExecuteStatement _ params =>
      resourceArn params = clusterArn
      /\ Walkthrough.secretArn params = secretArn
  | DescribeDBClusters _ (Some id) => id = clusterArn
  | _ => True
  end.

(** The calls of the database step: the description of one cluster and the
    statement execution. *)
Definition isDatabaseCall (e : event) : bool :=
  match e with
  | ExecuteStatement _ _ | DescribeDBClusters _ (Some _) => true
  | _ => false
  end.

(** The names of a listing, each once, in order of first appearance. *)
Fixpoint distinct (names : list string) : list string :=
  match names with
  | [] => []
  | n :: rest =>
      n :: filter (fun x => negb (String.eqb x n)) (distinct rest)
  end.

Definition isServerless (c : DBCluster) : bool :=
  String.eqb (EngineMode c) "serverless".

Definition matchesCluster (clusterResourceId : string) (s : SecretListEntry) : bool :=
  JS.startsWith (Name s) (secretNamePrefix clusterResourceId).

(** A [Map] filled by one [set] per element, in list order. *)
Definition fill {X V} (key : X -> string) (val : X -> V) (l : list X) (m : JS.Map V)
  : JS.Map V :=
  fold_left (fun m x => JS.set m (key x) (val x)) l m.

(** [x] is the last element of [l] with the key [k]. *)
Definition lastWithKey {X} (key : X -> string) (k : string) (x : X) (l : list X) : Prop :=
  exists before after,
    l = before ++ x :: after
    /\ key x = k
    /\ forall y, In y after -> key y <> k.

End Walkthrough.

(** ** A sample project, used to run the functions on concrete inputs *)

Module Sample.
Import Meta Walkthrough.

Definition inputs : list Input.t :=
  [ {| Input.type := "list"; Input.key := "region"; Input.question := "Provide the region:" |};
    {| Input.type := "list"; Input.key := "rdsClusterIdentifier"; Input.question := "Select the cluster:" |};
    {| Input.type := "list"; Input.key := "rdsSecretStoreArn"; Input.question := "Select the secret:" |};
    {| Input.type := "list"; Input.key := "databaseName"; Input.question := "Select the database:" |} ].

Definition datasourceMetadata : DatasourceMetadata :=
  {| Walkthrough.inputs := inputs; availableRegions := ["us-east-1"; "eu-west-1"] |}.

Definition appsync : Resource := {| service := Some "AppSync" |}.
Definition lambda : Resource := {| service := Some "Lambda" |}.

Definition metaWith (resources : JS.Object Resource) : AmplifyMeta :=
  {| providers := Some {| awscloudformation := Some {| Region := Some "us-east-1" |} |};
     api := Some resources |}.

Definition contextWith (resources : JS.Object Resource) : Context :=
  {| projectMeta := Some (metaWith resources); isPostgres := None |}.

Definition cluster : DBCluster :=
  {| DBClusterIdentifier := "orders-db";
     DBClusterArn := "arn:aws:rds:us-east-1:1:cluster:orders-db";
     DbClusterResourceId := "cluster-ABC";
     Engine := "aurora-postgresql";
     EngineMode := "serverless" |}.

Definition provisioned : DBCluster :=
  {| DBClusterIdentifier := "legacy-db";
     DBClusterArn := "arn:aws:rds:us-east-1:1:cluster:legacy-db";
     DbClusterResourceId := "cluster-XYZ";
     Engine := "aurora-mysql";
     EngineMode := "provisioned" |}.

Definition otherSecret : SecretListEntry :=
  {| Name := "api-key"; ARN := "arn:aws:secretsmanager:us-east-1:1:secret:api-key" |}.

Definition clusterSecret : SecretListEntry :=
  {| Name := "rds-db-credentials/cluster-ABC/admin";
     ARN := "arn:aws:secretsmanager:us-east-1:1:secret:rds-admin" |}.

Definition secondClusterSecret : SecretListEntry :=
  {| Name := "rds-db-credentials/cluster-ABC/reader";
     ARN := "arn:aws:secretsmanager:us-east-1:1:secret:rds-reader" |}.

Definition row (s : string) : Record_ := [ {| stringValue := Some s |} ].

Definition accessDenied : JsError :=
  {| code := Some "BadRequestException";
     message := "Access denied for user 'admin'@'10.0.0.1' (using password: YES)" |}.

Definition timeout : JsError :=
  {| code := Some "TimeoutError"; message := "Connection timed out" |}.

(** The prompt library picks the first choice. *)
Definition firstChoice (q : Question.t) : JS.Object string :=
  match Question.choices q with
  | Some c :: _ => [(Question.name q, c)]
  | _ => []
  end.

(** A provider with the given clusters, secret pages (the token of page
    [n] is the text ["page"]) and data-API answer. *)
Definition provider (clusters : list DBCluster)
    (first second : list SecretListEntry) (paged : bool)
    (statement : JsError + list Record_) : World :=
  {| inquirer_prompt := firstChoice;
     getConfiguredAWSClient := fun _ _ => inr {| config_region := None |};
     describeDBClusters := fun _ id =>
       match id with
       | None => inr clusters
       | Some arn => inr (filter (fun c => String.eqb (DBClusterArn c) arn) clusters)
       end;
     listSecrets := fun _ params =>
       match ListSecretsRequest.NextToken params with
       | None =>
           inr {| ListSecretsResponse.SecretList := first;
                  ListSecretsResponse.NextToken := if paged then Some "page" else None |}
       | Some _ =>
           inr {| ListSecretsResponse.SecretList := second;
                  ListSecretsResponse.NextToken := None |}
       end;
     executeStatement := fun _ _ => statement |}.

(** Twenty secrets on the first page, five on the second, the cluster's
    own secret last. *)
Definition pagedWorld : World :=
  provider [cluster] (repeat otherSecret 20) (repeat otherSecret 4 ++ [clusterSecret]) true
    (inr [row "rdsadmin"; row "postgres"; row "app_db"]).

(** The data API refuses the credentials, or times out. *)
Definition deniedWorld : World :=
  provider [cluster] [clusterSecret] [] false (inl accessDenied).

Definition timeoutWorld : World :=
  provider [cluster] [clusterSecret] [] false (inl timeout).

Definition world : World :=
  provider [provisioned; cluster] [otherSecret; clusterSecret] [secondClusterSecret] true
    (inr [row "template0"; row "orders"]).

(** Secrets that do not follow the cluster naming convention, one name
    listed twice. *)
Definition adminSecret : SecretListEntry :=
  {| Name := "db-admin"; ARN := "arn:aws:secretsmanager:us-east-1:1:secret:db-admin" |}.

Definition rotatedSecret : SecretListEntry :=
  {| Name := "api-key"; ARN := "arn:aws:secretsmanager:us-east-1:1:secret:api-key-v2" |}.

Definition noMatchWorld : World :=
  provider [cluster] [otherSecret; adminSecret; rotatedSecret] [] false
    (inr [row "orders"]).

Definition noSecretsWorld : World :=
  provider [cluster] [] [] false (inr [row "orders"]).

(** The second row has no cells. *)
Definition brokenRowWorld : World :=
  provider [cluster] [clusterSecret] [] false (inr [row "orders"; []; row "users"]).

Definition throttled : JsError :=
  {| code := Some "ThrottlingException"; message := "Rate exceeded" |}.

(** The provider rejects every description of a single cluster, or the
    second page of secrets, or the cluster listing. *)
Definition describeFailsWorld : World :=
  {| inquirer_prompt := firstChoice;
     getConfiguredAWSClient := fun _ _ => inr {| config_region := None |};
     describeDBClusters := fun _ id =>
       match id with
       | None => inr [cluster]
       | Some _ => inl throttled
       end;
     listSecrets := listSecrets world;
     executeStatement := executeStatement world |}.

Definition secondPageFailsWorld : World :=
  {| inquirer_prompt := firstChoice;
     getConfiguredAWSClient := fun _ _ => inr {| config_region := None |};
     describeDBClusters := describeDBClusters world;
     listSecrets := fun _ params =>
       match ListSecretsRequest.NextToken params with
       | None =>
           inr {| ListSecretsResponse.SecretList := [otherSecret];
                  ListSecretsResponse.NextToken := Some "page" |}
       | Some _ => inl throttled
       end;
     executeStatement := executeStatement world |}.

(** Two serverless clusters share an identifier. *)
Definition replica : DBCluster :=
  {| DBClusterIdentifier := "orders-db";
     DBClusterArn := "arn:aws:rds:us-east-1:1:cluster:orders-db-replica";
     DbClusterResourceId := "cluster-DEF";
     Engine := "aurora-mysql";
     EngineMode := "serverless" |}.

Definition sampleAWS : AwsClient := {| config_region := Some "us-east-1" |}.

(** A secret that follows the cluster naming convention and has an empty
    ARN, listed after an ordinary secret. *)
Definition blankArnSecret : SecretListEntry :=
  {| Name := "rds-db-credentials/cluster-ABC/admin"; ARN := EmptyString |}.

Definition blankArnWorld : World :=
  provider [cluster] [otherSecret; blankArnSecret] [] false (inr [row "orders"]).

End Sample.

(** * Properties *)

(** ** Facts about the JavaScript primitives *)

Section JSFacts.
Local Open Scope string_scope.

Lemma startsWith_iff (s p : string) :
  JS.startsWith s p = true <-> exists rest, s = p ++ rest.
Proof.
  revert s; induction p as [|c p IH]; intros s; simpl.
  - split; [intros _; now exists s | intros _; reflexivity].
  - destruct s as [|d s].
    + split; [discriminate | intros [rest H]; discriminate].
    + rewrite andb_true_iff, Ascii.eqb_eq, IH. split.
      * intros [-> [rest ->]]. now exists rest.
      * intros [rest H]. injection H as -> ->. split; [reflexivity | now exists rest].
Qed.

Lemma includes_iff (s sub : string) :
  JS.includes s sub = true <-> exists before after, s = before ++ sub ++ after.
Proof.
  induction s as [|c s IH].
  - simpl. rewrite orb_false_r, startsWith_iff. split.
    + intros [rest H]. now exists EmptyString, rest.
    + intros [before [after H]]. destruct before; [now exists after | discriminate].
  - change (JS.includes (String c s) sub)
      with (JS.startsWith (String c s) sub || JS.includes s sub).
    rewrite orb_true_iff, startsWith_iff, IH. split.
    + intros [[rest H] | [before [after H]]].
      * now exists EmptyString, rest.
      * exists (String c before), after. simpl. now rewrite H.
    + intros [before [after H]]. destruct before as [|d before].
      * left. now exists after.
      * right. simpl in H. injection H as _ H. now exists before, after.
Qed.

(** The first piece of a split is the text before the first separator. *)
Lemma split_first (sep : ascii) (a b : string) :
  JS.includes a (String sep EmptyString) = false ->
  fst (JS.split sep (a ++ String sep b)) = a.
Proof.
  induction a as [|c a IH]; intros H.
  - simpl. destruct (JS.split sep b). now rewrite Ascii.eqb_refl.
  - change (JS.includes (String c a) (String sep ""))
      with (JS.startsWith (String c a) (String sep "") || JS.includes a (String sep "")) in H.
    apply orb_false_iff in H as [H1 H2]. simpl in H1.
    rewrite andb_true_r in H1. simpl.
    specialize (IH H2). destruct (JS.split sep (a ++ String sep b)) as [h t].
    rewrite H1. simpl in *. now rewrite IH.
Qed.

Lemma prop_In {V} (o : JS.Object V) (k : string) (v : V) :
  JS.prop o k = Some v -> In (k, v) o.
Proof.
  induction o as [|[k' v'] o IH]; simpl; [discriminate|].
  destruct (String.eqb_spec k' k) as [->|_].
  - intros [= ->]. now left.
  - intros H. right. auto.
Qed.

Lemma prop_of_key {V} (o : JS.Object V) (k : string) :
  In k (JS.keys o) -> exists v, JS.prop o k = Some v.
Proof.
  induction o as [|[k' v'] o IH]; simpl; [tauto|].
  intros [->|H].
  - rewrite String.eqb_refl. now exists v'.
  - destruct (String.eqb k' k); [now exists v' | auto].
Qed.

End JSFacts.

(** ** The default values *)

Section DefaultsFacts.
Import Meta Defaults.
Local Open Scope string_scope.

(** C10. For every project whose metadata carries the CloudFormation
    provider block, and every identifier drawn by [uuid.v4()],
    [getAllDefaults] returns a record whose resource name is the short
    identifier (the text of the UUID before its first dash), whose policy
    name is ["Policy"] followed by that identifier, whose region is the
    [Region] entry of the provider block, and whose two role names are the
    parameter references [{Ref: 'AuthRoleName'}] and
    [{Ref: 'UnauthRoleName'}]. *)
Theorem getAllDefaults_record
    (uuid_v4 : string) (project : Project)
    (meta : AmplifyMeta) (p : Providers) (cfn : CloudFormationMeta) :
  amplifyMeta project = Some meta ->
  providers meta = Some p ->
  awscloudformation p = Some cfn ->
  exists defaults,
    getAllDefaults uuid_v4 project = inr defaults
    /\ resourceName defaults = shortIdOf uuid_v4
    /\ convertPolicyName defaults = "Policy" ++ shortIdOf uuid_v4
    /\ region defaults = Region cfn
    /\ authRoleName defaults = {| Ref := "AuthRoleName" |}
    /\ unauthRoleName defaults = {| Ref := "UnauthRoleName" |}
    /\ (forall head rest,
          JS.includes head "-" = false ->
          uuid_v4 = head ++ "-" ++ rest ->
          shortIdOf uuid_v4 = head).
Proof.
  intros Hm Hp Hc. unfold getAllDefaults. rewrite Hm, Hp, Hc.
  eexists. split; [reflexivity|]. simpl. repeat split.
  intros head rest Hhead ->. unfold shortIdOf. now apply split_first.
Qed.

Lemma getAllDefaults_record_witness :
  exists defaults,
    getAllDefaults "1b9d6bcd-bbfd-4b2d-9b5d-ab8dfbbd4bed"
      {| amplifyMeta := Some (Sample.metaWith []) |} = inr defaults
    /\ resourceName defaults = "1b9d6bcd"
    /\ convertPolicyName defaults = "Policy1b9d6bcd"
    /\ region defaults = Some "us-east-1".
Proof.
  destruct (getAllDefaults_record "1b9d6bcd-bbfd-4b2d-9b5d-ab8dfbbd4bed"
              {| amplifyMeta := Some (Sample.metaWith []) |}
              (Sample.metaWith [])
              {| awscloudformation := Some {| Region := Some "us-east-1" |} |}
              {| Region := Some "us-east-1" |}
              eq_refl eq_refl eq_refl)
    as [d [H1 [H2 [H3 [H4 _]]]]].
  exists d. repeat split; assumption.
Defined.

End DefaultsFacts.

(** ** The walkthrough *)

Section RunFacts.
Import Walkthrough.

Context {A : Type}.

Lemma after_outcome (t : list event) (r : Run A) : outcome (after t r) = outcome r.
Proof. now destruct r. Qed.

Lemma after_context (t : list event) (r : Run A) : context (after t r) = context r.
Proof. now destruct r. Qed.

Lemma after_trace (t : list event) (r : Run A) : trace (after t r) = t ++ trace r.
Proof. now destruct r. Qed.

End RunFacts.

Section MonadFacts.
Import Walkthrough.

Context {A B : Type}.

Lemma bind_exited (m : M A) (f : A -> M B) c z :
  outcome (m c) = Exited z ->
  bind m f c = {| outcome := Exited z; context := context (m c); trace := trace (m c) |}.
Proof. unfold bind. destruct (m c) as [o c' t]. simpl. now intros ->. Qed.

Lemma bind_thrown (m : M A) (f : A -> M B) c e :
  outcome (m c) = Thrown e ->
  bind m f c = {| outcome := Thrown e; context := context (m c); trace := trace (m c) |}.
Proof. unfold bind. destruct (m c) as [o c' t]. simpl. now intros ->. Qed.

Lemma bind_returned (m : M A) (f : A -> M B) c a :
  outcome (m c) = Returned a ->
  bind m f c = after (trace (m c)) (f a (context (m c))).
Proof. unfold bind. destruct (m c) as [o c' t]. simpl. now intros ->. Qed.

Lemma bind_returned_inv (m : M A) (f : A -> M B) c b :
  outcome (bind m f c) = Returned b ->
  exists a, outcome (m c) = Returned a /\ outcome (f a (context (m c))) = Returned b.
Proof.
  unfold bind. destruct (m c) as [[a| | |] c' t]; cbv beta iota; try (simpl; discriminate).
  rewrite after_outcome. intros H. now exists a.
Qed.

Lemma never_ret (p : event -> bool) (a : A) : never p (ret a).
Proof. intros c; reflexivity. Qed.

Lemma never_throw (p : event -> bool) (e : JsError) : never p (@throw A e).
Proof. intros c; reflexivity. Qed.

Lemma never_exit (p : event -> bool) (z : Z) : never p (@exitOnNextTick A z).
Proof. intros c; reflexivity. Qed.

Lemma never_running (p : event -> bool) : never p (@running A).
Proof. intros c; reflexivity. Qed.

Lemma never_await (p : event -> bool) (x : JsError + A) : never p (await x).
Proof. destruct x; intros c; reflexivity. Qed.

Lemma never_bind (p : event -> bool) (m : M A) (f : A -> M B) :
  never p m -> (forall a, never p (f a)) -> never p (bind m f).
Proof.
  intros Hm Hf c. unfold bind. specialize (Hm c).
  destruct (m c) as [[a| | |] c' t]; cbv beta iota; try assumption.
  rewrite after_trace, existsb_app. simpl in Hm. rewrite Hm. apply Hf.
Qed.

(** What follows a computation that does not return is not run. *)
Lemma never_bind_stops (p : event -> bool) (m : M A) (f : A -> M B) :
  never p m -> stops m -> never p (bind m f).
Proof.
  intros Hm Hs c. unfold bind. specialize (Hm c). specialize (Hs c).
  destruct (m c) as [[a| | |] c' t]; cbv beta iota; simpl in *; try assumption.
  now destruct (Hs a).
Qed.

Lemma never_attempt (p : event -> bool) (m : M A) : never p m -> never p (attempt m).
Proof.
  intros Hm c. unfold attempt. specialize (Hm c).
  destruct (m c) as [[a| | |] c' t]; cbv beta iota; assumption.
Qed.

Lemma stops_exit (z : Z) : stops (@exitOnNextTick A z).
Proof. intros c a; discriminate. Qed.

Lemma stops_bind_l (m : M A) (f : A -> M B) : stops m -> stops (bind m f).
Proof.
  intros Hs c b. unfold bind. specialize (Hs c).
  destruct (m c) as [[a| | |] c' t]; cbv beta iota; simpl in *; try discriminate.
  now destruct (Hs a).
Qed.

Lemma stops_bind_r (m : M A) (f : A -> M B) : (forall a, stops (f a)) -> stops (bind m f).
Proof.
  intros Hs c b. unfold bind.
  destruct (m c) as [[a| | |] c' t]; cbv beta iota; try (simpl; discriminate).
  rewrite after_outcome. apply Hs.
Qed.

Lemma preserves_ret (a : A) : preserves (ret a).
Proof. intros c; reflexivity. Qed.

Lemma preserves_throw (e : JsError) : preserves (@throw A e).
Proof. intros c; reflexivity. Qed.

Lemma preserves_exit (z : Z) : preserves (@exitOnNextTick A z).
Proof. intros c; reflexivity. Qed.

Lemma preserves_running : preserves (@running A).
Proof. intros c; reflexivity. Qed.

Lemma preserves_await (x : JsError + A) : preserves (await x).
Proof. destruct x; intros c; reflexivity. Qed.

Lemma preserves_bind (m : M A) (f : A -> M B) :
  preserves m -> (forall a, preserves (f a)) -> preserves (bind m f).
Proof.
  intros Hm Hf c. unfold bind. specialize (Hm c).
  destruct (m c) as [[a| | |] c' t]; cbv beta iota; try assumption.
  rewrite after_context, Hf. assumption.
Qed.

Lemma preserves_attempt (m : M A) : preserves m -> preserves (attempt m).
Proof.
  intros Hm c. unfold attempt. specialize (Hm c).
  destruct (m c) as [[a| | |] c' t]; cbv beta iota; assumption.
Qed.

End MonadFacts.

Section UnitFacts.
Import Walkthrough.

Lemma never_emit (p : event -> bool) (e : event) : p e = false -> never p (emit e).
Proof. intros H c. simpl. now rewrite H. Qed.

Lemma never_when (p : event -> bool) (b : bool) (m : M unit) :
  never p m -> never p (when b m).
Proof. destruct b; [trivial | intros _ c; reflexivity]. Qed.

Lemma preserves_emit (e : event) : preserves (emit e).
Proof. intros c; reflexivity. Qed.

Lemma preserves_when (b : bool) (m : M unit) : preserves m -> preserves (when b m).
Proof. destruct b; [trivial | intros _ c; reflexivity]. Qed.

Lemma preserves_getProjectMeta : preserves getProjectMeta.
Proof. intros c; reflexivity. Qed.

Lemma never_getProjectMeta (p : event -> bool) : never p getProjectMeta.
Proof. intros c; reflexivity. Qed.

Lemma never_readIsPostgres (p : event -> bool) : never p readIsPostgres.
Proof. intros c; reflexivity. Qed.

Lemma never_setIsPostgres (p : event -> bool) (b : bool) : never p (setIsPostgres b).
Proof. intros c; reflexivity. Qed.

End UnitFacts.

Create HintDb walk.

#[export] Hint Resolve
  never_ret never_throw never_exit never_running never_await never_bind
  never_attempt never_emit never_when never_getProjectMeta never_readIsPostgres
  never_setIsPostgres
  preserves_ret preserves_throw preserves_exit preserves_running preserves_await
  preserves_bind preserves_attempt preserves_emit preserves_when
  preserves_getProjectMeta
  stops_exit stops_bind_r : walk.

(** Splits a goal about a composed computation into its steps. *)
Ltac walk :=
  repeat first
    [ apply never_bind; [|intros ?]
    | apply preserves_bind; [|intros ?]
    | apply never_when
    | apply preserves_when
    | apply never_attempt
    | apply preserves_attempt
    | apply never_emit; reflexivity
    | solve [auto with walk] ].

Section StepFacts.
Import Meta Walkthrough.

Variable w : World.

(** The prompt step: no provider call, no change of the context. *)
Lemma never_promptWalkthroughQuestion (p : event -> bool) inputs n choices :
  (forall q, p (Prompt q) = false) ->
  never p (promptWalkthroughQuestion w inputs n choices).
Proof.
  intros Hp. unfold promptWalkthroughQuestion.
  destruct (nth_error inputs n); [|walk].
  unfold inquirer_prompt_call. walk.
Qed.

Lemma preserves_promptWalkthroughQuestion inputs n choices :
  preserves (promptWalkthroughQuestion w inputs n choices).
Proof.
  unfold promptWalkthroughQuestion.
  destruct (nth_error inputs n); [|walk].
  unfold inquirer_prompt_call. walk.
Qed.

Lemma serverlessClusters_from (rawClusters : list DBCluster) (acc : JS.Map DBCluster) :
  Forall (fun c => EngineMode c <> "serverless") rawClusters ->
  fold_left
    (fun clusters c =>
       if String.eqb (EngineMode c) "serverless"
       then JS.set clusters (DBClusterIdentifier c) c
       else clusters)
    rawClusters acc = acc.
Proof.
  intros H; revert acc; induction H as [|c l Hc _ IH]; intros acc; simpl.
  - reflexivity.
  - destruct (String.eqb_spec (EngineMode c) "serverless"); [contradiction | apply IH].
Qed.

Lemma selectCluster_none_run inputs AWS rawClusters ctx :
  describeDBClusters w AWS None = inr rawClusters ->
  Forall (fun c => EngineMode c <> "serverless") rawClusters ->
  selectCluster w inputs AWS ctx =
    {| outcome := Exited 0;
       context := ctx;
       trace := DescribeDBClusters AWS None
                :: reportEvents ResourceDoesNotExistError noClustersMessage |}.
Proof.
  intros Hd Hnone.
  unfold selectCluster, RDS_describeDBClusters, bind, emit. simpl.
  rewrite Hd. simpl. unfold serverlessClusters.
  rewrite (serverlessClusters_from _ _ Hnone). reflexivity.
Qed.

Lemma selectCluster_stops inputs AWS :
  (forall rawClusters,
      describeDBClusters w AWS None = inr rawClusters ->
      Forall (fun c => EngineMode c <> "serverless") rawClusters) ->
  stops (selectCluster w inputs AWS).
Proof.
  intros H ctx a.
  destruct (describeDBClusters w AWS None) as [e|rawClusters] eqn:Hd.
  - unfold selectCluster, RDS_describeDBClusters, bind, emit. simpl.
    rewrite Hd. discriminate.
  - rewrite (selectCluster_none_run _ _ _ _ Hd (H _ eq_refl)). discriminate.
Qed.

Lemma never_selectCluster (p : event -> bool) inputs AWS :
  (forall q, p (Prompt q) = false) ->
  (forall id, p (DescribeDBClusters AWS id) = false) ->
  (forall msg, p (PrintError msg) = false) ->
  (forall cls msg, p (EmitError cls msg) = false) ->
  never p (selectCluster w inputs AWS).
Proof.
  intros Hq Hd Hp He. unfold selectCluster, RDS_describeDBClusters.
  apply never_bind.
  - apply never_bind; [apply never_emit, Hd | walk].
  - intros rawClusters. destruct (Nat.ltb 0 _).
    + apply never_bind; [now apply never_promptWalkthroughQuestion|].
      intros id. destruct (JS.get _ id); walk.
    + unfold context_print_error, context_usageData_emitError.
      apply never_bind; [apply never_emit, Hp|]. intros _.
      apply never_bind; [apply never_emit, He | walk].
Qed.

(** The precondition check touches neither the provider nor the prompt. *)
Lemma never_findApi (p : event -> bool) :
  (forall msg, p (PrintError msg) = false) ->
  (forall cls msg, p (EmitError cls msg) = false) ->
  never p findApi.
Proof.
  intros Hp He. unfold findApi, context_print_error, context_usageData_emitError.
  assert (Hreport : forall cls msg,
             never p (emit (PrintError msg) ;; emit (EmitError cls msg) ;;
                      @exitOnNextTick unit 0)).
  { intros cls msg. apply never_bind; [apply never_emit, Hp|]. intros _.
    apply never_bind; [apply never_emit, He | walk]. }
  apply never_bind; [walk|]. intros amplifyMeta.
  apply never_bind; [apply never_when, Hreport|]. intros _.
  apply never_bind.
  { destruct amplifyMeta as [meta|]; [destruct (api meta)|]; walk. }
  intros resources. apply never_bind; [walk|]. intros appSyncApi.
  apply never_bind; [apply never_when, Hreport | walk].
Qed.

End StepFacts.

Section ClusterFacts.
Import Meta Walkthrough.



End ClusterFacts.

Section PreconditionFacts.
Import Meta Walkthrough.

Lemma filter_nil_all {X} (f : X -> bool) (l : list X) :
  filter f l = [] -> forall x, In x l -> f x = false.
Proof.
  induction l as [|y l IH]; simpl; [tauto|].
  destruct (f y) eqn:Hy; [discriminate|].
  intros H x [<-|Hx]; auto.
Qed.

Lemma findAppSyncApi_untagged (resources : JS.Object Resource) (apis : list string) :
  filter (fun kr => serviceIs (snd kr) "AppSync") resources = [] ->
  incl apis (JS.keys resources) ->
  findAppSyncApi resources apis = inr None.
Proof.
  intros Hnone. induction apis as [|name rest IH]; intros Hincl; simpl.
  - reflexivity.
  - destruct (prop_of_key resources name) as [r Hr]; [apply Hincl; now left|].
    rewrite Hr.
    pose proof (filter_nil_all _ _ Hnone (name, r) (prop_In _ _ _ Hr)) as Hf.
    simpl in Hf. rewrite Hf.
    apply IH. intros k Hk. apply Hincl. now right.
Qed.

Lemma findAppSyncApi_found (resources : JS.Object Resource) (apis : list string) name :
  findAppSyncApi resources apis = inr (Some name) ->
  In name (JS.keys (filter (fun kr => serviceIs (snd kr) "AppSync") resources)).
Proof.
  induction apis as [|k rest IH]; simpl; [discriminate|].
  destruct (JS.prop resources k) as [r|] eqn:Hr; [|discriminate].
  destruct (serviceIs r "AppSync") eqn:Htag; [|exact IH].
  intros [= <-]. unfold JS.keys.
  change k with (fst (k, r)). apply in_map, filter_In.
  split; [now apply prop_In | exact Htag].
Qed.

Lemma prop_NoDup {V} (o : JS.Object V) (k : string) (v : V) :
  NoDup (JS.keys o) -> In (k, v) o -> JS.prop o k = Some v.
Proof.
  induction o as [|[k' v'] o IH]; simpl; [tauto|].
  intros Hnd [[= -> ->]|Hin].
  - now rewrite String.eqb_refl.
  - inversion Hnd as [|? ? Hnotin Hnd']; subst.
    destruct (String.eqb_spec k' k) as [->|_]; [|auto].
    destruct Hnotin. change k with (fst (k, v)). now apply in_map.
Qed.

(** Over distinct keys the loop finds the first tagged resource. *)
Lemma findAppSyncApi_first (resources part : JS.Object Resource) :
  (forall k r, In (k, r) part -> JS.prop resources k = Some r) ->
  findAppSyncApi resources (JS.keys part)
  = inr (hd_error (JS.keys (filter (fun kr => serviceIs (snd kr) "AppSync") part))).
Proof.
  induction part as [|[k r] part IH]; intros H; simpl; [reflexivity|].
  rewrite (H k r (or_introl eq_refl)).
  destruct (serviceIs r "AppSync"); [reflexivity|].
  apply IH. intros k' r' Hin. apply H. now right.
Qed.

Local Arguments findAppSyncApi : simpl never.

(** The three ways the precondition check can end. *)
Lemma findApi_cases (ctx : Context) :
  findApi ctx = untaggedRun ctx
  \/ (exists e, findApi ctx = {| outcome := Thrown e; context := ctx; trace := [] |})
  \/ (exists name resources,
        findApi ctx = {| outcome := Returned (Some name); context := ctx; trace := [] |}
        /\ name <> EmptyString
        /\ apiKeys (projectMeta ctx) = JS.keys resources
        /\ findAppSyncApi resources (JS.keys resources) = inr (Some name)
        /\ taggedWith "AppSync" (projectMeta ctx)
           = JS.keys (filter (fun kr => serviceIs (snd kr) "AppSync") resources)).
Proof.
  unfold findApi, bind, getProjectMeta, taggedWith, apiKeys. simpl.
  destruct (projectMeta ctx) as [meta|]; simpl; [|now left].
  destruct (api meta) as [resources|]; simpl; [|now left].
  destruct resources as [|kr resources]; simpl; [now left|].
  set (rs := kr :: resources).
  change (fst kr :: JS.keys resources) with (JS.keys rs).
  destruct (findAppSyncApi rs (JS.keys rs)) as [e|[name|]] eqn:Hfind; simpl.
  - right; left. now exists e.
  - destruct name as [|c name]; simpl; [now left|].
    right; right. exists (String c name), rs.
    repeat split; [discriminate | exact Hfind].
  - now left.
Qed.

Lemma taggedWith_nil_run (ctx : Context) :
  taggedWith "AppSync" (projectMeta ctx) = [] -> findApi ctx = untaggedRun ctx.
Proof.
  intros Hnone.
  destruct (findApi_cases ctx) as [H|[[e H]|[name [rs [H [_ [_ [Hfind Htag]]]]]]]].
  - exact H.
  - exfalso. revert H Hnone.
    unfold findApi, bind, getProjectMeta, taggedWith. simpl.
    destruct (projectMeta ctx) as [meta|]; simpl; [|discriminate].
    destruct (api meta) as [resources|]; simpl; [|discriminate].
    destruct resources as [|kr resources]; [discriminate|].
    intros H Hnone. apply map_eq_nil in Hnone.
    simpl in H.
    change (fst kr :: JS.keys resources) with (JS.keys (kr :: resources)) in H.
    rewrite (findAppSyncApi_untagged _ _ Hnone (incl_refl _)) in H.
    discriminate.
  - apply findAppSyncApi_found in Hfind. rewrite <- Htag, Hnone in Hfind.
    destruct Hfind.
Qed.

End PreconditionFacts.


Section PreconditionTheorem.
Import Meta Walkthrough.

(** C1, as amended.  When no API resource is tagged ['AppSync'],
    [serviceWalkthrough] prints the 'You must create an AppSync API'
    message, emits it as a [ResourceDoesNotExistError] and exits with code
    0, and its trace holds nothing else: no prompt and no provider call.
    A run that shows a prompt, calls the provider or returns a result has
    at least one resource tagged ['AppSync'] (not necessarily exactly one);
    the returned resource name is a tagged one, the first in key order. *)
Theorem serviceWalkthrough_precondition
    (w : World) (budget : nat) (defaultValuesFilename : string)
    (datasourceMetadata : DatasourceMetadata) (ctx : Context) :
  let r := serviceWalkthrough w budget defaultValuesFilename datasourceMetadata ctx in
  let tagged := taggedWith "AppSync" (projectMeta ctx) in
  (tagged = [] ->
     outcome r = Exited 0
     /\ trace r = [PrintError noApiMessage;
                   EmitError ResourceDoesNotExistError noApiMessage]
     /\ existsb isProviderCall (trace r) = false
     /\ context r = ctx)
  /\ (forall e, In e (trace r) ->
        isPrompt e = true \/ isProviderCall e = true ->
        tagged <> [])
  /\ (forall result, outcome r = Returned result ->
        exists name,
          resourceName result = Some name
          /\ In name tagged
          /\ (NoDup (apiKeys (projectMeta ctx)) -> hd_error tagged = Some name)).
Proof.
  intros r tagged. subst r tagged. unfold serviceWalkthrough.
  destruct (findApi_cases ctx)
    as [H|[[err H]|[name [rs [H [Hname [Hkeys [Hfind Htag]]]]]]]].
  - (* the check reports and exits *)
    rewrite (bind_exited _ _ _ 0) by now rewrite H.
    rewrite H. simpl. split; [|split].
    + intros _. repeat split.
    + intros e [<-|[<-|[]]] [He|He]; discriminate.
    + discriminate.
  - (* the check throws *)
    rewrite (bind_thrown _ _ _ err) by now rewrite H.
    rewrite H. simpl. split; [|split].
    + intros Hnone. rewrite (taggedWith_nil_run _ Hnone) in H. discriminate.
    + intros e [].
    + discriminate.
  - (* the check finds an API *)
    assert (Hin : In name (taggedWith "AppSync" (projectMeta ctx))).
    { rewrite Htag. exact (findAppSyncApi_found _ _ _ Hfind). }
    split; [|split].
    + intros Hnone. rewrite Hnone in Hin. destruct Hin.
    + intros _ _ _ Hnone. rewrite Hnone in Hin. destruct Hin.
    + intros result Hres.
      apply bind_returned_inv in Hres as [api0 [Hapi Hres]].
      rewrite H in Hapi. injection Hapi as <-.
      repeat (apply bind_returned_inv in Hres as [? [_ Hres]]).
      injection Hres as <-. simpl.
      exists name. repeat split; [exact Hin|].
      intros Hnd. rewrite Hkeys in Hnd.
      rewrite findAppSyncApi_first in Hfind.
      * rewrite Htag. congruence.
      * intros k r0. now apply prop_NoDup.
Qed.

Lemma serviceWalkthrough_precondition_witness :
  let ctx := Sample.contextWith [("notes", Sample.lambda)] in
  let r := serviceWalkthrough Sample.world 3 "defaults.js" Sample.datasourceMetadata ctx in
  outcome r = Exited 0
  /\ trace r = [PrintError noApiMessage;
                EmitError ResourceDoesNotExistError noApiMessage]
  /\ existsb isProviderCall (trace r) = false
  /\ context r = ctx.
Proof.
  intros ctx.
  apply (serviceWalkthrough_precondition
           Sample.world 3 "defaults.js" Sample.datasourceMetadata ctx).
  reflexivity.
Defined.

(** C1, as stated, fails: with two resources tagged ['AppSync'] the
    walkthrough gets past the check, calls the provider and returns a
    result naming the first of them. *)
Lemma precondition_two_tagged :
  let ctx := Sample.contextWith [("blog", Sample.appsync); ("shop", Sample.appsync)] in
  let r := serviceWalkthrough Sample.world 3 "defaults.js" Sample.datasourceMetadata ctx in
  List.length (taggedWith "AppSync" (projectMeta ctx)) = 2
  /\ outcome (findApi ctx) = Returned (Some "blog")
  /\ existsb isProviderCall (trace r) = true
  /\ (exists result, outcome r = Returned result /\ resourceName result = Some "blog")
  /\ ~ (existsb isProviderCall (trace r) = true ->
        List.length (taggedWith "AppSync" (projectMeta ctx)) = 1).
Proof.
  simpl. repeat split.
  - eexists. split; reflexivity.
  - intros H. specialize (H eq_refl). discriminate.
Qed.

End PreconditionTheorem.

Section SecretFacts.
Import Meta Walkthrough.

Variable w : World.

Lemma listRemainingSecrets_done budget AWS rawSecrets token :
  JS.truthy token = false ->
  listRemainingSecrets w budget AWS rawSecrets token = ret rawSecrets.
Proof. intros H. destruct budget; simpl; now rewrite H. Qed.

(** The loop follows the pages it is served, whatever it has collected. *)
Lemma listRemainingSecrets_run pages :
  forall budget AWS rawSecrets token ctx,
    JS.truthy token = true ->
    servesPages w AWS token pages ->
    List.length pages <= budget ->
    listRemainingSecrets w budget AWS rawSecrets token ctx =
      {| outcome := Returned (rawSecrets ++ mergedSecrets pages);
         context := ctx;
         trace := pageRequests AWS token pages |}.
Proof.
  induction pages as [|page rest IH]; intros budget AWS rawSecrets token ctx Htok Hserve Hlen.
  - destruct Hserve.
  - destruct budget as [|budget]; [simpl in Hlen; lia|].
    destruct Hserve as [Hpage Hrest].
    simpl listRemainingSecrets. rewrite Htok.
    unfold SecretsManager_listSecrets, bind, emit. simpl.
    rewrite Hpage. simpl.
    destruct rest as [|next rest'].
    + rewrite (listRemainingSecrets_done _ _ _ _ Hrest).
      simpl. unfold mergedSecrets. simpl. rewrite List.app_nil_r; reflexivity.
    + destruct Hrest as [Htok' Hrest].
      rewrite (IH budget AWS _ _ ctx Htok' Hrest) by (simpl in *; lia).
      simpl. unfold mergedSecrets. simpl. rewrite <- !List.app_assoc; reflexivity.
Qed.

Lemma listAllSecrets_run pages budget AWS ctx :
  servesPages w AWS None pages ->
  List.length pages <= S budget ->
  listAllSecrets w budget AWS ctx =
    {| outcome := Returned (mergedSecrets pages);
       context := ctx;
       trace := pageRequests AWS None pages |}.
Proof.
  destruct pages as [|page rest]; intros Hserve Hlen; [destruct Hserve|].
  destruct Hserve as [Hpage Hrest].
  unfold listAllSecrets, SecretsManager_listSecrets, bind, emit. simpl.
  rewrite Hpage. simpl.
  destruct rest as [|next rest'].
  - rewrite (listRemainingSecrets_done _ _ _ _ Hrest). simpl.
    unfold mergedSecrets. simpl. rewrite List.app_nil_r; reflexivity.
  - destruct Hrest as [Htok Hrest].
    rewrite (listRemainingSecrets_run _ budget AWS _ _ ctx Htok Hrest)
      by (simpl in *; lia).
    reflexivity.
Qed.

Lemma never_listRemainingSecrets (p : event -> bool) budget :
  forall AWS rawSecrets token,
    (forall params, p (ListSecrets AWS params) = false) ->
    never p (listRemainingSecrets w budget AWS rawSecrets token).
Proof.
  induction budget as [|budget IH]; intros AWS rawSecrets token Hp; simpl;
    destruct (JS.truthy token); walk.
Qed.

Lemma never_listAllSecrets (p : event -> bool) budget AWS :
  (forall params, p (ListSecrets AWS params) = false) ->
  never p (listAllSecrets w budget AWS).
Proof.
  intros Hp. unfold listAllSecrets, SecretsManager_listSecrets. walk.
  now apply never_listRemainingSecrets.
Qed.

Lemma never_chooseSecret (p : event -> bool) inputs clusterResourceId rawSecrets :
  (forall q, p (Prompt q) = false) ->
  (forall msg, p (PrintError msg) = false) ->
  (forall cls msg, p (EmitError cls msg) = false) ->
  never p (chooseSecret w inputs clusterResourceId rawSecrets).
Proof.
  intros Hq Hp He. unfold chooseSecret.
  destruct (scanSecrets clusterResourceId rawSecrets []) as [arn secrets].
  destruct (negb (JS.truthy arn)); [|walk].
  destruct (Nat.ltb 0 (JS.size secrets)).
  - apply never_bind; [now apply never_promptWalkthroughQuestion | walk].
  - unfold context_print_error, context_usageData_emitError. walk.
Qed.

Lemma pageRequests_only AWS pages token :
  existsb isPrompt (pageRequests AWS token pages) = false
  /\ forallb isListSecrets (pageRequests AWS token pages) = true
  /\ List.length (pageRequests AWS token pages) = List.length pages.
Proof.
  revert token; induction pages as [|page rest IH]; intros token; simpl.
  - repeat split.
  - destruct (IH (ListSecretsResponse.NextToken page)) as [H1 [H2 H3]].
    repeat split; auto.
Qed.

(** The loop stops at the first match; what follows it is not looked at. *)
Lemma scanSecrets_first clusterResourceId before s after :
  forall secrets,
    Forall (fun x => JS.startsWith (Name x) (secretNamePrefix clusterResourceId) = false)
           before ->
    JS.startsWith (Name s) (secretNamePrefix clusterResourceId) = true ->
    fst (scanSecrets clusterResourceId (before ++ s :: after) secrets) = Some (ARN s).
Proof.
  intros secrets Hbefore; revert secrets.
  induction Hbefore as [|x before Hx _ IH]; intros secrets Hs;
    cbn [scanSecrets List.app].
  - now rewrite Hs.
  - rewrite Hx. now apply IH.
Qed.

End SecretFacts.

Section SecretTheorems.
Import Meta Walkthrough.

(** C3. When the provider serves the listing as the pages [pages], each
    but the last carrying a continuation token, [getSecretStoreArn] (given
    a budget of at least that many requests) asks for every page in turn,
    sending back the token of the page before, and stops at the page
    without a token; the selection then runs once, on the concatenation of
    all pages in order.  The requests come first in the trace and hold no
    prompt; the selection lists nothing further.  Two pages of 20 and 5
    secrets give 25 candidates. *)
Theorem getSecretStoreArn_pagination
    (w : World) (AWS : AwsClient) (pages : list ListSecretsResponse.t)
    (budget : nat) (inputs : list Input.t) (clusterResourceId : string)
    (ctx : Context) :
  servesPages w AWS None pages ->
  List.length pages <= S budget ->
  let listing := listAllSecrets w budget AWS ctx in
  let chosen := chooseSecret w inputs clusterResourceId (mergedSecrets pages) ctx in
  let r := getSecretStoreArn w budget inputs clusterResourceId AWS ctx in
  outcome listing = Returned (mergedSecrets pages)
  /\ trace listing = pageRequests AWS None pages
  /\ List.length (trace listing) = List.length pages
  /\ existsb isPrompt (trace listing) = false
  /\ outcome r = outcome chosen
  /\ trace r = trace listing ++ trace chosen
  /\ existsb isListSecrets (trace chosen) = false
  /\ (forall first second,
        pages = [first; second] ->
        List.length (ListSecretsResponse.SecretList first) = 20 ->
        List.length (ListSecretsResponse.SecretList second) = 5 ->
        List.length (mergedSecrets pages) = 25).
Proof.
  intros Hserve Hlen listing chosen r. subst listing chosen r.
  unfold getSecretStoreArn.
  rewrite (bind_returned _ _ ctx (mergedSecrets pages))
    by now rewrite (listAllSecrets_run w _ _ _ ctx Hserve Hlen).
  rewrite (listAllSecrets_run w _ _ _ ctx Hserve Hlen).
  cbn [outcome context trace]. rewrite after_outcome, after_trace.
  destruct (pageRequests_only AWS pages None) as [Hprompt [_ Hcount]].
  repeat split; try assumption.
  - apply (never_chooseSecret w isListSecrets); reflexivity.
  - intros first second -> H1 H2. unfold mergedSecrets. simpl.
    rewrite List.app_nil_r, List.length_app. lia.
Qed.

Lemma getSecretStoreArn_pagination_witness :
  let AWS := {| config_region := Some "us-east-1" |} in
  let first := {| ListSecretsResponse.SecretList := repeat Sample.otherSecret 20;
                  ListSecretsResponse.NextToken := Some "page" |} in
  let second := {| ListSecretsResponse.SecretList :=
                     repeat Sample.otherSecret 4 ++ [Sample.clusterSecret];
                   ListSecretsResponse.NextToken := None |} in
  let ctx := Sample.contextWith [("blog", Sample.appsync)] in
  outcome (listAllSecrets Sample.pagedWorld 1 AWS ctx)
    = Returned (mergedSecrets [first; second])
  /\ List.length (mergedSecrets [first; second]) = 25.
Proof.
  intros AWS first second ctx.
  destruct (getSecretStoreArn_pagination Sample.pagedWorld AWS [first; second] 1
              Sample.inputs "cluster-ABC" ctx)
    as [H1 [_ [_ [_ [_ [_ [_ H8]]]]]]].
  - simpl. repeat split.
  - simpl. lia.
  - split; [exact H1 | apply (H8 first second); reflexivity].
Defined.

(** C2, as amended.  When the provider serves the listing as the pages
    [pages], and the pages merged hold a secret whose name starts with
    ['rds-db-credentials/'] followed by the cluster's resource ID,
    [getSecretStoreArn] (given a budget of that many requests) returns the
    ARN of the first such secret in listing order, on whichever page and at
    whichever position it stands and whatever follows it, provided that ARN
    is not empty: the code tests the selected ARN for truthiness.  The run
    consists of the listing requests only; no prompt is shown. *)
Theorem getSecretStoreArn_autodetect
    (w : World) (budget : nat) (inputs : list Input.t) (clusterResourceId : string)
    (AWS : AwsClient) (ctx : Context) (pages : list ListSecretsResponse.t)
    (before after : list SecretListEntry) (s : SecretListEntry) :
  servesPages w AWS None pages ->
  List.length pages <= S budget ->
  mergedSecrets pages = before ++ s :: after ->
  Forall (fun x => JS.startsWith (Name x) ("rds-db-credentials/" ++ clusterResourceId) = false)
         before ->
  JS.startsWith (Name s) ("rds-db-credentials/" ++ clusterResourceId) = true ->
  ARN s <> EmptyString ->
  let r := getSecretStoreArn w budget inputs clusterResourceId AWS ctx in
  outcome r = Returned (Some (ARN s))
  /\ trace r = pageRequests AWS None pages
  /\ existsb isPrompt (trace r) = false.
Proof.
  intros Hserve Hlen Hmerged Hbefore Hs Harn r. subst r. unfold getSecretStoreArn.
  pose proof (listAllSecrets_run w pages budget AWS ctx Hserve Hlen) as Hrun.
  rewrite (bind_returned _ _ ctx (mergedSecrets pages)) by now rewrite Hrun.
  rewrite Hrun. cbn [trace context]. rewrite after_outcome, after_trace, Hmerged.
  pose proof (scanSecrets_first clusterResourceId before s after [] Hbefore Hs) as Hscan.
  unfold chooseSecret.
  destruct (scanSecrets clusterResourceId (before ++ s :: after) []) as [arn secrets].
  simpl in Hscan. subst arn.
  destruct (ARN s) as [|c arn] eqn:Ha; [contradiction|]. simpl.
  rewrite List.app_nil_r.
  split; [reflexivity|]. split; [reflexivity|].
  apply pageRequests_only.
Qed.

(** The cluster's secret is the last entry of the second page. *)
Lemma getSecretStoreArn_autodetect_witness :
  let r := getSecretStoreArn Sample.pagedWorld 1 Sample.inputs "cluster-ABC"
             Sample.sampleAWS (Sample.contextWith [("blog", Sample.appsync)]) in
  outcome r = Returned (Some (ARN Sample.clusterSecret))
  /\ List.length (trace r) = 2
  /\ existsb isPrompt (trace r) = false.
Proof.
  intros r.
  destruct (getSecretStoreArn_autodetect Sample.pagedWorld 1 Sample.inputs "cluster-ABC"
              Sample.sampleAWS (Sample.contextWith [("blog", Sample.appsync)])
              [ {| ListSecretsResponse.SecretList := repeat Sample.otherSecret 20;
                   ListSecretsResponse.NextToken := Some "page" |};
                {| ListSecretsResponse.SecretList :=
                     repeat Sample.otherSecret 4 ++ [Sample.clusterSecret];
                   ListSecretsResponse.NextToken := None |} ]
              (repeat Sample.otherSecret 24) [] Sample.clusterSecret)
    as [H1 [H2 H3]].
  - simpl. repeat split.
  - simpl. lia.
  - reflexivity.
  - repeat constructor.
  - reflexivity.
  - simpl. discriminate.
  - subst r. split; [exact H1|]. split; [now rewrite H2 | exact H3].
Defined.

(** C2, as stated, fails: a listed secret whose name follows the naming
    convention and whose ARN is empty is not selected; the prompt is shown
    and the ARN of the secret chosen there is returned. *)
Lemma autodetect_blank_arn :
  let page := {| ListSecretsResponse.SecretList :=
                   [Sample.otherSecret; Sample.blankArnSecret];
                 ListSecretsResponse.NextToken := None |} in
  let r := getSecretStoreArn Sample.blankArnWorld 1 Sample.inputs "cluster-ABC"
             Sample.sampleAWS (Sample.contextWith [("blog", Sample.appsync)]) in
  servesPages Sample.blankArnWorld Sample.sampleAWS None [page]
  /\ In Sample.blankArnSecret (mergedSecrets [page])
  /\ JS.startsWith (Name Sample.blankArnSecret) ("rds-db-credentials/" ++ "cluster-ABC")
     = true
  /\ JS.startsWith (Name Sample.otherSecret) ("rds-db-credentials/" ++ "cluster-ABC")
     = false
  /\ existsb isPrompt (trace r) = true
  /\ outcome r = Returned (Some (ARN Sample.otherSecret))
  /\ outcome r <> Returned (Some (ARN Sample.blankArnSecret)).
Proof.
  simpl. repeat split; try reflexivity; try (now right; left); discriminate.
Qed.

End SecretTheorems.

Section DatabaseFacts.
Import Meta Walkthrough.

Variable w : World.

Lemma promptWalkthroughQuestion_trace inputs n choicesList ctx :
  trace (promptWalkthroughQuestion w inputs n choicesList ctx)
  = promptEvents inputs n choicesList.
Proof.
  unfold promptWalkthroughQuestion, promptEvents.
  destruct (nth_error inputs n); reflexivity.
Qed.

(** Rows that all have a first cell are read to the end. *)
Lemma pushRecords_all valid records :
  forall databaseList,
    forallb hasFirstCell records = true ->
    pushRecords valid records databaseList
    = (databaseList
         ++ filter (fun v => negb (JS.arrayIncludes valid v)) (map firstValue records),
       None).
Proof.
  induction records as [|record rest IH]; intros databaseList Hcells;
    cbn [pushRecords map filter].
  - rewrite List.app_nil_r; reflexivity.
  - simpl in Hcells. apply andb_true_iff in Hcells as [Hcell Hrest].
    destruct record as [|cell others]; [discriminate|]. cbn [firstValue].
    destruct (negb (JS.arrayIncludes valid (stringValue cell))).
    + rewrite (IH _ Hrest), <- List.app_assoc. reflexivity.
    + apply IH, Hrest.
Qed.

Local Arguments JS.includes : simpl never.
Local Arguments JS.arrayIncludes : simpl never.
Local Arguments validRecordValues : simpl never.
Local Arguments pushRecords : simpl never.
Local Arguments isAccessDenied : simpl never.
Local Arguments remediationMessage : simpl never.
Local Arguments nth_error : simpl never.

(** A run whose statement execution throws. *)
Lemma selectDatabase_failed_run inputs clusterArn secretArn AWS ctx dbCluster err :
  describeDBClusters w AWS (Some clusterArn) = inr dbCluster ->
  executeStatement w AWS (statementParams clusterArn secretArn (classify dbCluster))
    = inl err ->
  selectDatabase w inputs clusterArn secretArn AWS ctx =
    {| outcome := Exited 0;
       context := withIsPostgres (classify dbCluster) ctx;
       trace :=
         [DescribeDBClusters AWS (Some clusterArn);
          SpinnerStart "Fetching Aurora Serverless cluster...";
          ExecuteStatement AWS (statementParams clusterArn secretArn (classify dbCluster));
          SpinnerFail (message err)]
         ++ (if isAccessDenied err
             then [PrintError (remediationMessage secretArn)] else [])
         ++ reportEvents ResourceDoesNotExistError noDatabasesMessage |}.
Proof.
  intros Hd He. unfold statementParams, classify in *.
  unfold selectDatabase, RDS_describeDBClusters, DataApi_executeStatement,
    bind, emit, attempt, setIsPostgres, readIsPostgres, catchBlock.
  simpl. rewrite Hd. simpl. rewrite He. simpl.
  destruct (isAccessDenied err); reflexivity.
Qed.

(** A run whose statement execution answers with readable rows. *)
Lemma selectDatabase_fetched_run inputs clusterArn secretArn AWS ctx dbCluster records :
  describeDBClusters w AWS (Some clusterArn) = inr dbCluster ->
  executeStatement w AWS (statementParams clusterArn secretArn (classify dbCluster))
    = inr records ->
  forallb hasFirstCell records = true ->
  let ctx' := withIsPostgres (classify dbCluster) ctx in
  let databaseList := candidates (classify dbCluster) records in
  let start :=
    [DescribeDBClusters AWS (Some clusterArn);
     SpinnerStart "Fetching Aurora Serverless cluster...";
     ExecuteStatement AWS (statementParams clusterArn secretArn (classify dbCluster));
     SpinnerSucceed "Fetched Aurora Serverless cluster."] in
  selectDatabase w inputs clusterArn secretArn AWS ctx =
    if Nat.ltb 0 (List.length databaseList) then
      {| outcome := outcome (promptWalkthroughQuestion w inputs 3 databaseList ctx');
         context := ctx';
         trace := start ++ promptEvents inputs 3 databaseList |}
    else
      {| outcome := Exited 0;
         context := ctx';
         trace := start ++ reportEvents ResourceDoesNotExistError noDatabasesMessage |}.
Proof.
  intros Hd He Hcells ctx' databaseList start. subst ctx' databaseList start.
  unfold candidates, statementParams, classify in *.
  unfold selectDatabase, RDS_describeDBClusters, DataApi_executeStatement,
    bind, emit, attempt, setIsPostgres, readIsPostgres, catchBlock.
  simpl. rewrite Hd. simpl. rewrite He. simpl.
  rewrite (pushRecords_all _ _ [] Hcells). simpl.
  destruct (Nat.ltb 0 _); [|reflexivity].
  unfold withIsPostgres.
  match goal with
  | |- context [promptWalkthroughQuestion w inputs 3 ?l ?c] =>
      pose proof (promptWalkthroughQuestion_trace inputs 3 l c) as Ht;
      pose proof (preserves_promptWalkthroughQuestion w inputs 3 l c) as Hc;
      destruct (promptWalkthroughQuestion w inputs 3 l c) as [o c' t]
  end.
  simpl in Ht, Hc. subst c' t. reflexivity.
Qed.

(** Every run that gets the cluster description classifies the engine,
    stores the classification in the context and executes the statement
    built for it. *)
Lemma selectDatabase_start inputs clusterArn secretArn AWS ctx dbCluster :
  describeDBClusters w AWS (Some clusterArn) = inr dbCluster ->
  let r := selectDatabase w inputs clusterArn secretArn AWS ctx in
  context r = withIsPostgres (classify dbCluster) ctx
  /\ exists rest,
      trace r =
        [DescribeDBClusters AWS (Some clusterArn);
         SpinnerStart "Fetching Aurora Serverless cluster...";
         ExecuteStatement AWS (statementParams clusterArn secretArn (classify dbCluster))]
        ++ rest.
Proof.
  intros Hd r. subst r.
  destruct (executeStatement w AWS
              (statementParams clusterArn secretArn (classify dbCluster)))
    as [err|records] eqn:He.
  - rewrite (selectDatabase_failed_run _ _ _ _ ctx _ _ Hd He). simpl.
    split; [reflexivity | eexists; reflexivity].
  - unfold statementParams, classify, withIsPostgres in *.
    unfold selectDatabase, RDS_describeDBClusters, DataApi_executeStatement,
      bind, emit, attempt, setIsPostgres, readIsPostgres, catchBlock.
    simpl. rewrite Hd. simpl. rewrite He. simpl.
    destruct (pushRecords _ records []) as [databaseList [err|]]; simpl;
      [destruct (isAccessDenied err); simpl|];
      (destruct (Nat.ltb 0 (List.length databaseList));
       [ match goal with
         | |- context [promptWalkthroughQuestion w inputs 3 ?l ?c] =>
             pose proof (preserves_promptWalkthroughQuestion w inputs 3 l c) as Hc;
             destruct (promptWalkthroughQuestion w inputs 3 l c) as [o c' t]
         end;
         simpl in Hc; subst c'
       | ];
       simpl; (split; [reflexivity | eexists; reflexivity])).
Qed.

(** The statement is executed once, with the parameters built for the
    classification. *)
Lemma selectDatabase_statement_once inputs clusterArn secretArn AWS ctx dbCluster params :
  describeDBClusters w AWS (Some clusterArn) = inr dbCluster ->
  In (ExecuteStatement AWS params)
     (trace (selectDatabase w inputs clusterArn secretArn AWS ctx)) ->
  params = statementParams clusterArn secretArn (classify dbCluster).
Proof.
  intros Hd.
  destruct (executeStatement w AWS
              (statementParams clusterArn secretArn (classify dbCluster)))
    as [err|records] eqn:He.
  - rewrite (selectDatabase_failed_run _ _ _ _ ctx _ _ Hd He). simpl.
    intros [H|[H|[H|[H|H]]]]; try discriminate.
    + now injection H as <-.
    + destruct (isAccessDenied err); simpl in H;
        repeat (destruct H as [H|H]; try discriminate); destruct H.
  - unfold statementParams, classify in *.
    unfold selectDatabase, RDS_describeDBClusters, DataApi_executeStatement,
      bind, emit, attempt, setIsPostgres, readIsPostgres, catchBlock.
    simpl. rewrite Hd. simpl. rewrite He. simpl.
    destruct (pushRecords _ records []) as [databaseList [err|]]; simpl;
      [destruct (isAccessDenied err); simpl|];
      (destruct (Nat.ltb 0 (List.length databaseList));
       [ match goal with
         | |- context [promptWalkthroughQuestion w inputs 3 ?l ?c] =>
             pose proof (promptWalkthroughQuestion_trace inputs 3 l c) as Ht;
             destruct (promptWalkthroughQuestion w inputs 3 l c) as [o c' t]
         end;
         simpl in Ht; subst t; unfold promptEvents;
         destruct (nth_error inputs 3)
       | ];
       simpl; intros H;
       repeat (destruct H as [H|H]; try discriminate);
       try (now injection H as <-); try destruct H).
Qed.

End DatabaseFacts.

Section DatabaseTheorems.
Import Meta Walkthrough.
Local Open Scope string_scope.

Lemma isAccessDenied_iff (err : JsError) :
  isAccessDenied err = true
  <-> code err = Some "BadRequestException"
      /\ exists before after, message err = before ++ "Access denied for user" ++ after.
Proof.
  unfold isAccessDenied. rewrite andb_true_iff, includes_iff.
  destruct (code err) as [c|].
  - rewrite String.eqb_eq. split; intros [H1 H2]; split; congruence.
  - split; intros [H1 H2]; discriminate.
Qed.

Lemma classify_iff (dbCluster : list DBCluster) :
  classify dbCluster = true
  <-> exists cluster before after,
        In cluster dbCluster /\ Engine cluster = before ++ "postgres" ++ after.
Proof.
  unfold classify. rewrite existsb_exists. split.
  - intros [cluster [Hin Hinc]]. apply includes_iff in Hinc as [before [after H]].
    now exists cluster, before, after.
  - intros [cluster [before [after [Hin H]]]]. exists cluster. split; [exact Hin|].
    apply includes_iff. now exists before, after.
Qed.

(** C4. From rows that each have a first cell, [selectDatabase] takes one
    value per row, [record[0].stringValue], and keeps, in row order, the
    values that are not in the reserved list of the engine (for Postgres
    rdsadmin, postgres, template1, template0; otherwise
    information_schema, performance_schema, mysql); the kept values are
    the choices of the database prompt, and with none kept the run exits.
    Rows rdsadmin, postgres, app_db on a Postgres cluster give exactly
    [app_db]. *)
Theorem selectDatabase_candidates
    (w : World) (inputs : list Input.t) (clusterArn : string)
    (secretArn : option string) (AWS : AwsClient) (ctx : Context)
    (dbCluster : list DBCluster) (records : list Record_) :
  describeDBClusters w AWS (Some clusterArn) = inr dbCluster ->
  executeStatement w AWS (statementParams clusterArn secretArn (classify dbCluster))
    = inr records ->
  forallb hasFirstCell records = true ->
  let isPg := classify dbCluster in
  let reserved :=
    if isPg then ["rdsadmin"; "postgres"; "template1"; "template0"]
    else ["information_schema"; "performance_schema"; "mysql"] in
  let databaseList :=
    filter (fun v => negb (JS.arrayIncludes reserved v)) (map firstValue records) in
  let r := selectDatabase w inputs clusterArn secretArn AWS ctx in
  List.length (map firstValue records) = List.length records
  /\ pushRecords (validRecordValues isPg) records [] = (databaseList, None)
  /\ (databaseList <> [] ->
      filter isPrompt (trace r) = promptEvents inputs 3 databaseList)
  /\ (databaseList = [] ->
      outcome r = Exited 0 /\ filter isPrompt (trace r) = [])
  /\ (isPg = true ->
      map firstValue records = [Some "rdsadmin"; Some "postgres"; Some "app_db"] ->
      databaseList = [Some "app_db"]).
Proof.
  intros Hd He Hcells isPg reserved databaseList r.
  assert (Hlist : databaseList = candidates isPg records).
  { subst databaseList reserved. unfold candidates, validRecordValues.
    now destruct isPg. }
  assert (Hprompts : filter isPrompt (promptEvents inputs 3 databaseList)
                     = promptEvents inputs 3 databaseList).
  { unfold promptEvents. now destruct (nth_error inputs 3). }
  subst r. rewrite (selectDatabase_fetched_run w _ _ _ _ ctx _ _ Hd He Hcells).
  fold isPg. rewrite <- Hlist. clearbody databaseList.
  split; [apply List.length_map|]. split.
  { rewrite (pushRecords_all _ _ [] Hcells), Hlist. reflexivity. }
  split; [|split].
  - intros Hne. destruct databaseList as [|v l]; [contradiction|]. simpl.
    exact Hprompts.
  - intros ->. simpl. split; reflexivity.
  - intros Hpg Hrows. rewrite Hlist. unfold candidates. rewrite Hpg, Hrows. reflexivity.
Qed.

Lemma selectDatabase_candidates_witness :
  let AWS := {| config_region := Some "us-east-1" |} in
  let ctx := Sample.contextWith [("blog", Sample.appsync)] in
  let r := selectDatabase Sample.pagedWorld Sample.inputs (DBClusterArn Sample.cluster)
             (Some (ARN Sample.clusterSecret)) AWS ctx in
  pushRecords (validRecordValues true)
    [Sample.row "rdsadmin"; Sample.row "postgres"; Sample.row "app_db"] []
    = ([Some "app_db"], None)
  /\ filter isPrompt (trace r) = promptEvents Sample.inputs 3 [Some "app_db"].
Proof.
  intros AWS ctx.
  destruct (selectDatabase_candidates Sample.pagedWorld Sample.inputs
              (DBClusterArn Sample.cluster) (Some (ARN Sample.clusterSecret)) AWS ctx
              [Sample.cluster]
              [Sample.row "rdsadmin"; Sample.row "postgres"; Sample.row "app_db"]
              eq_refl eq_refl eq_refl)
    as [_ [H2 [H3 _]]].
  split; [exact H2 | apply H3; discriminate].
Defined.

(** C5. [selectDatabase] classifies the described cluster as Postgres
    exactly when its engine name contains the text ['postgres'], letter
    case included (when the description answers with several clusters,
    when one of them does); it stores the classification in
    [context.isPostgres] and executes ['SELECT datname FROM pg_database;']
    for Postgres and ['show databases'] otherwise, and the names it leaves
    out are those of the list of the same classification. *)
Theorem selectDatabase_classification
    (w : World) (inputs : list Input.t) (clusterArn : string)
    (secretArn : option string) (AWS : AwsClient) (ctx : Context)
    (dbCluster : list DBCluster) :
  describeDBClusters w AWS (Some clusterArn) = inr dbCluster ->
  let isPg := existsb (fun cluster => JS.includes (Engine cluster) "postgres") dbCluster in
  let r := selectDatabase w inputs clusterArn secretArn AWS ctx in
  (forall cluster, dbCluster = [cluster] ->
     (isPg = true <-> exists before after, Engine cluster = before ++ "postgres" ++ after))
  /\ (isPg = true <-> exists cluster before after,
                        In cluster dbCluster
                        /\ Engine cluster = before ++ "postgres" ++ after)
  /\ isPostgres (context r) = Some isPg
  /\ In (ExecuteStatement AWS
           {| secretArn := secretArn;
              resourceArn := clusterArn;
              sql := if isPg then "SELECT datname FROM pg_database;"
                     else "show databases" |})
        (trace r)
  /\ (forall params, In (ExecuteStatement AWS params) (trace r) ->
        sql params = if isPg then "SELECT datname FROM pg_database;"
                     else "show databases")
  /\ (forall records,
        executeStatement w AWS (statementParams clusterArn secretArn isPg) = inr records ->
        forallb hasFirstCell records = true ->
        pushRecords (validRecordValues isPg) records []
          = (candidates isPg records, None)
        /\ filter isPrompt (trace r)
           = match candidates isPg records with
             | [] => []
             | _ :: _ => promptEvents inputs 3 (candidates isPg records)
             end)
  /\ validRecordValues true = ["rdsadmin"; "postgres"; "template1"; "template0"]
  /\ validRecordValues false = ["information_schema"; "performance_schema"; "mysql"]
  /\ JS.includes "aurora-postgresql" "postgres" = true
  /\ JS.includes "aurora-POSTGRESQL" "postgres" = false
  /\ JS.includes "aurora-mysql" "postgres" = false.
Proof.
  intros Hd isPg r. change isPg with (classify dbCluster) in *. clear isPg.
  split.
  { intros cluster ->. unfold classify. simpl. rewrite orb_false_r. apply includes_iff. }
  split; [apply classify_iff|].
  destruct (selectDatabase_start w inputs clusterArn secretArn AWS ctx _ Hd)
    as [Hctx [rest Htrace]].
  fold r in Hctx, Htrace.
  split; [now rewrite Hctx|].
  split; [rewrite Htrace; right; right; now left|].
  split.
  { intros params Hin.
    now rewrite (selectDatabase_statement_once w _ _ _ _ ctx _ _ Hd Hin). }
  split.
  { intros records He Hcells. subst r.
    rewrite (selectDatabase_fetched_run w _ _ _ _ ctx _ _ Hd He Hcells).
    split; [apply (pushRecords_all _ _ [] Hcells)|].
    destruct (candidates (classify dbCluster) records) as [|v l] eqn:Hc; simpl;
      [reflexivity|].
    unfold promptEvents. now destruct (nth_error inputs 3). }
  repeat split.
Qed.

Lemma selectDatabase_classification_witness :
  let AWS := {| config_region := Some "us-east-1" |} in
  let ctx := Sample.contextWith [("blog", Sample.appsync)] in
  let r := selectDatabase Sample.world Sample.inputs (DBClusterArn Sample.cluster)
             (Some (ARN Sample.clusterSecret)) AWS ctx in
  isPostgres (context r) = Some true
  /\ In (ExecuteStatement AWS
           {| secretArn := Some (ARN Sample.clusterSecret);
              resourceArn := DBClusterArn Sample.cluster;
              sql := "SELECT datname FROM pg_database;" |})
        (trace r).
Proof.
  intros AWS ctx.
  destruct (selectDatabase_classification Sample.world Sample.inputs
              (DBClusterArn Sample.cluster) (Some (ARN Sample.clusterSecret)) AWS ctx
              [Sample.cluster] eq_refl)
    as [_ [_ [H2 [H3 _]]]].
  split; [exact H2 | exact H3].
Defined.

Lemma remediation_names_arn (secretArn : option string) :
  JS.includes (remediationMessage secretArn) (JS.interpolate secretArn) = true.
Proof.
  apply includes_iff. unfold remediationMessage.
  exists "Ensure that '". eexists. reflexivity.
Qed.



(** C9. Whatever the statement execution throws, [selectDatabase]
    catches it: the run never ends in a thrown value, shows no prompt,
    ends with 'No properly configured databases found.' printed and
    emitted, and exits with code 0.  The remediation message is printed
    exactly when the error's code is ['BadRequestException'] and its
    message contains 'Access denied for user'. *)
Theorem selectDatabase_swallows_errors
    (w : World) (inputs : list Input.t) (clusterArn : string)
    (secretArn : option string) (AWS : AwsClient) (ctx : Context)
    (dbCluster : list DBCluster) (err : JsError) :
  describeDBClusters w AWS (Some clusterArn) = inr dbCluster ->
  executeStatement w AWS (statementParams clusterArn secretArn (classify dbCluster))
    = inl err ->
  let r := selectDatabase w inputs clusterArn secretArn AWS ctx in
  outcome r = Exited 0
  /\ (forall thrown, outcome r <> Thrown thrown)
  /\ existsb isPrompt (trace r) = false
  /\ (exists before,
        trace r = (before
                   ++ [PrintError "No properly configured databases found.";
                       EmitError ResourceDoesNotExistError
                         "No properly configured databases found."])%list)
  /\ (In (PrintError (remediationMessage secretArn)) (trace r)
      <-> code err = Some "BadRequestException"
          /\ exists before after,
               message err = before ++ "Access denied for user" ++ after).
Proof.
  intros Hd He r. subst r.
  rewrite (selectDatabase_failed_run w _ _ _ _ ctx _ _ Hd He).
  rewrite <- isAccessDenied_iff. cbn [outcome trace].
  split; [reflexivity|]. split; [discriminate|].
  destruct (isAccessDenied err).
  - split; [reflexivity|]. split.
    + eexists [_; _; _; _; _]. reflexivity.
    + split; [reflexivity|]. intros _. do 4 right. now left.
  - split; [reflexivity|]. split.
    + eexists [_; _; _; _]. reflexivity.
    + split; [|discriminate]. simpl.
      intros [H|[H|[H|[H|[H|[H|[]]]]]]]; discriminate.
Qed.

Lemma selectDatabase_swallows_errors_witness :
  let AWS := {| config_region := Some "us-east-1" |} in
  let ctx := Sample.contextWith [("blog", Sample.appsync)] in
  let r := selectDatabase Sample.timeoutWorld Sample.inputs (DBClusterArn Sample.cluster)
             (Some "arn:secret") AWS ctx in
  outcome r = Exited 0
  /\ ~ In (PrintError (remediationMessage (Some "arn:secret"))) (trace r).
Proof.
  intros AWS ctx.
  destruct (selectDatabase_swallows_errors Sample.timeoutWorld Sample.inputs
              (DBClusterArn Sample.cluster) (Some "arn:secret") AWS ctx
              [Sample.cluster] Sample.timeout eq_refl eq_refl)
    as [H1 [_ [_ [_ H5]]]].
  split; [exact H1|]. intros Hin. apply H5 in Hin as [Hcode _]. discriminate.
Defined.

End DatabaseTheorems.

Section ContextFacts.
Import Meta Walkthrough.

Lemma touches_of_preserves {A} (m : M A) : preserves m -> touchesOnlyIsPostgres m.
Proof. intros H c. rewrite H. split; [reflexivity | now left]. Qed.

Lemma touches_bind {A B} (m : M A) (f : A -> M B) :
  touchesOnlyIsPostgres m ->
  (forall a, touchesOnlyIsPostgres (f a)) ->
  touchesOnlyIsPostgres (bind m f).
Proof.
  intros Hm Hf c. unfold bind. specialize (Hm c).
  destruct (m c) as [[a| | |] c' t]; cbv beta iota; try exact Hm.
  rewrite after_context. simpl in Hm. destruct Hm as [Hmeta Hctx].
  destruct (Hf a c') as [Hmeta' Hctx']. split; [congruence|].
  destruct Hctx' as [->|Hset]; [exact Hctx | now right].
Qed.

Lemma bind_returned_context {A B} (m : M A) (f : A -> M B) c b :
  outcome (bind m f c) = Returned b ->
  exists a, outcome (m c) = Returned a
            /\ outcome (f a (context (m c))) = Returned b
            /\ context (bind m f c) = context (f a (context (m c))).
Proof.
  unfold bind. destruct (m c) as [[a| | |] c' t]; try (simpl; discriminate).
  rewrite after_outcome, after_context. intros H. now exists a.
Qed.

Variable w : World.

Lemma preserves_findApi : preserves findApi.
Proof.
  unfold findApi, context_print_error, context_usageData_emitError.
  apply preserves_bind; [walk|]. intros amplifyMeta.
  apply preserves_bind; [walk|]. intros _.
  apply preserves_bind.
  { destruct amplifyMeta as [meta|]; [destruct (api meta)|]; walk. }
  intros resources. walk.
Qed.

Lemma preserves_getAwsClient action : preserves (getAwsClient w action).
Proof. unfold getAwsClient, getConfiguredAWSClient_call. walk. Qed.

Lemma preserves_AWS_config_update AWS region :
  preserves (AWS_config_update AWS region).
Proof. unfold AWS_config_update. walk. Qed.

Lemma preserves_selectCluster inputs AWS : preserves (selectCluster w inputs AWS).
Proof.
  unfold selectCluster, RDS_describeDBClusters,
    context_print_error, context_usageData_emitError.
  apply preserves_bind; [walk|]. intros rawClusters.
  destruct (Nat.ltb 0 _); [|walk].
  apply preserves_bind; [apply preserves_promptWalkthroughQuestion|].
  intros id. destruct (JS.get _ id); walk.
Qed.

Lemma preserves_listRemainingSecrets budget :
  forall AWS rawSecrets token,
    preserves (listRemainingSecrets w budget AWS rawSecrets token).
Proof.
  induction budget as [|budget IH]; intros AWS rawSecrets token; simpl;
    destruct (JS.truthy token); walk.
Qed.

Lemma preserves_getSecretStoreArn budget inputs clusterResourceId AWS :
  preserves (getSecretStoreArn w budget inputs clusterResourceId AWS).
Proof.
  unfold getSecretStoreArn. apply preserves_bind.
  - unfold listAllSecrets, SecretsManager_listSecrets.
    apply preserves_bind; [walk|]. intros page. apply preserves_listRemainingSecrets.
  - intros rawSecrets. unfold chooseSecret.
    destruct (scanSecrets clusterResourceId rawSecrets []) as [arn secrets].
    destruct (negb (JS.truthy arn)); [|walk].
    destruct (Nat.ltb 0 (JS.size secrets)).
    + apply preserves_bind; [apply preserves_promptWalkthroughQuestion | walk].
    + unfold context_print_error, context_usageData_emitError. walk.
Qed.

Lemma touches_selectDatabase inputs clusterArn secretArn AWS :
  touchesOnlyIsPostgres (selectDatabase w inputs clusterArn secretArn AWS).
Proof.
  intros ctx.
  destruct (describeDBClusters w AWS (Some clusterArn)) as [e|dbCluster] eqn:Hd.
  - unfold selectDatabase, RDS_describeDBClusters, bind, emit. simpl.
    rewrite Hd. simpl. split; [reflexivity | now left].
  - destruct (selectDatabase_start w inputs clusterArn secretArn AWS ctx _ Hd) as [-> _].
    split; [reflexivity | right; now eexists].
Qed.

Lemma selectDatabase_returned_context inputs clusterArn secretArn AWS ctx v :
  outcome (selectDatabase w inputs clusterArn secretArn AWS ctx) = Returned v ->
  exists b, isPostgres (context (selectDatabase w inputs clusterArn secretArn AWS ctx))
            = Some b.
Proof.
  destruct (describeDBClusters w AWS (Some clusterArn)) as [e|dbCluster] eqn:Hd.
  - unfold selectDatabase, RDS_describeDBClusters, bind, emit. simpl.
    rewrite Hd. simpl. discriminate.
  - intros _.
    destruct (selectDatabase_start w inputs clusterArn secretArn AWS ctx _ Hd) as [-> _].
    now eexists.
Qed.

Lemma touches_serviceWalkthrough budget defaultValuesFilename datasourceMetadata :
  touchesOnlyIsPostgres
    (serviceWalkthrough w budget defaultValuesFilename datasourceMetadata).
Proof.
  unfold serviceWalkthrough.
  apply touches_bind; [apply touches_of_preserves, preserves_findApi|]. intros api0.
  apply touches_bind;
    [apply touches_of_preserves, preserves_promptWalkthroughQuestion|]. intros reg.
  apply touches_bind; [apply touches_of_preserves, preserves_getAwsClient|]. intros AWS0.
  apply touches_bind;
    [apply touches_of_preserves, preserves_AWS_config_update|]. intros AWS.
  apply touches_bind; [apply touches_of_preserves, preserves_selectCluster|]. intros cl.
  apply touches_bind;
    [apply touches_of_preserves, preserves_getSecretStoreArn|]. intros arn.
  apply touches_bind; [apply touches_selectDatabase|]. intros db.
  apply touches_of_preserves. walk.
Qed.

End ContextFacts.

Section ContextTheorems.
Import Meta Walkthrough.

(** C8, as amended.  The walkthrough changes one thing a caller can see:
    [selectDatabase] stores the engine classification in
    [context.isPostgres], once the cluster is described and before the
    statement is executed, so the field is set after every successful run
    and after every run that fails later in [selectDatabase].  The
    precondition check, the prompts, the client acquisition, the cluster
    selection and the secret selection leave the context as it was,
    whether they succeed or fail, and no step changes the project
    metadata. *)
Theorem walkthrough_context_effects (w : World) :
  preserves findApi
  /\ (forall inputs n choicesList,
        preserves (promptWalkthroughQuestion w inputs n choicesList))
  /\ (forall action, preserves (getAwsClient w action))
  /\ (forall inputs AWS, preserves (selectCluster w inputs AWS))
  /\ (forall budget inputs clusterResourceId AWS,
        preserves (getSecretStoreArn w budget inputs clusterResourceId AWS))
  /\ (forall inputs clusterArn secretArn AWS ctx dbCluster,
        describeDBClusters w AWS (Some clusterArn) = inr dbCluster ->
        context (selectDatabase w inputs clusterArn secretArn AWS ctx)
        = {| projectMeta := projectMeta ctx;
             isPostgres := Some (classify dbCluster) |})
  /\ (forall budget defaultValuesFilename datasourceMetadata ctx,
        let r := serviceWalkthrough w budget defaultValuesFilename datasourceMetadata ctx in
        projectMeta (context r) = projectMeta ctx
        /\ (context r = ctx \/ exists b, isPostgres (context r) = Some b)
        /\ (forall result, outcome r = Returned result ->
              exists b, isPostgres (context r) = Some b)).
Proof.
  split; [apply preserves_findApi|].
  split; [apply preserves_promptWalkthroughQuestion|].
  split; [apply preserves_getAwsClient|].
  split; [apply preserves_selectCluster|].
  split; [apply preserves_getSecretStoreArn|].
  split.
  { intros inputs clusterArn secretArn AWS ctx dbCluster Hd.
    now destruct (selectDatabase_start w inputs clusterArn secretArn AWS ctx _ Hd). }
  intros budget f dsm ctx r. subst r.
  destruct (touches_serviceWalkthrough w budget f dsm ctx) as [Hmeta Hctx].
  split; [exact Hmeta|]. split; [exact Hctx|].
  intros result Hres. unfold serviceWalkthrough in *.
  do 6 (apply bind_returned_context in Hres as [? [_ [Hres ->]]]).
  apply bind_returned_context in Hres as [db [Hdb [_ ->]]].
  simpl. exact (selectDatabase_returned_context w _ _ _ _ _ _ Hdb).
Qed.

Lemma walkthrough_context_effects_witness :
  let AWS := {| config_region := Some "us-east-1" |} in
  let ctx := Sample.contextWith [("blog", Sample.appsync)] in
  context (selectDatabase Sample.world Sample.inputs (DBClusterArn Sample.cluster)
             (Some (ARN Sample.clusterSecret)) AWS ctx)
  = {| projectMeta := projectMeta ctx; isPostgres := Some true |}.
Proof.
  intros AWS ctx.
  destruct (walkthrough_context_effects Sample.world) as [_ [_ [_ [_ [_ [H _]]]]]].
  exact (H Sample.inputs (DBClusterArn Sample.cluster) (Some (ARN Sample.clusterSecret))
           AWS ctx [Sample.cluster] eq_refl).
Defined.

(** C8, as stated, fails: a successful run and a run that fails in the
    database step both leave [context.isPostgres] set, where it was
    undefined before. *)
Lemma walkthrough_changes_context :
  let ctx := Sample.contextWith [("blog", Sample.appsync)] in
  let ok := serviceWalkthrough Sample.world 3 "defaults.js" Sample.datasourceMetadata ctx in
  let failed :=
    serviceWalkthrough Sample.deniedWorld 3 "defaults.js" Sample.datasourceMetadata ctx in
  isPostgres ctx = None
  /\ (exists result, outcome ok = Returned result)
  /\ isPostgres (context ok) = Some true
  /\ context ok <> ctx
  /\ outcome failed = Exited 0
  /\ isPostgres (context failed) = Some true
  /\ context failed <> ctx.
Proof.
  simpl. repeat split; try discriminate. eexists. reflexivity.
Qed.

End ContextTheorems.

(** * Further properties of the code *)

(** ** The default values *)

Section DefaultsEdgeCases.
Import Meta Defaults.
Local Open Scope string_scope.

Lemma split_fst_no_separator (sep : ascii) (s : string) :
  JS.includes (fst (JS.split sep s)) (String sep EmptyString) = false.
Proof.
  induction s as [|c s IH]; [reflexivity|].
  simpl. destruct (JS.split sep s) as [h t]. simpl in IH.
  destruct (Ascii.eqb c sep) eqn:Hc; [reflexivity|].
  change (JS.includes (String c h) (String sep ""))
    with (JS.startsWith (String c h) (String sep "") || JS.includes h (String sep "")).
  simpl. now rewrite Hc, IH.
Qed.

Lemma split_fst_prefix (sep : ascii) (s : string) :
  JS.startsWith s (fst (JS.split sep s)) = true.
Proof.
  induction s as [|c s IH]; [reflexivity|].
  simpl. destruct (JS.split sep s) as [h t]. simpl in IH.
  destruct (Ascii.eqb c sep); [reflexivity|].
  simpl. now rewrite Ascii.eqb_refl, IH.
Qed.

Lemma split_fst_whole (sep : ascii) (s : string) :
  JS.includes s (String sep EmptyString) = false -> fst (JS.split sep s) = s.
Proof.
  induction s as [|c s IH]; [reflexivity|].
  change (JS.includes (String c s) (String sep ""))
    with (JS.startsWith (String c s) (String sep "") || JS.includes s (String sep "")).
  intros H. apply orb_false_iff in H as [H1 H2]. simpl in H1.
  rewrite andb_true_r in H1. simpl.
  specialize (IH H2). destruct (JS.split sep s) as [h t].
  rewrite H1. simpl in *. now rewrite IH.
Qed.

Lemma split_fst_then_separator (sep : ascii) (s : string) :
  fst (JS.split sep s) <> s ->
  JS.startsWith s (fst (JS.split sep s) ++ String sep EmptyString) = true.
Proof.
  induction s as [|c s IH]; [intros H; now destruct H|].
  simpl. destruct (JS.split sep s) as [h t]. simpl in IH.
  destruct (Ascii.eqb c sep) eqn:Hc; simpl.
  - intros _. now rewrite Hc.
  - intros Hne. rewrite Ascii.eqb_refl. apply IH. congruence.
Qed.

(** X1. The short identifier is the part of the UUID before its first
    dash: it holds no dash, the UUID starts with it, it is the whole text
    when the UUID has no dash, and otherwise a dash follows it. *)
Theorem shortIdOf_first_segment (uuid : string) :
  JS.includes (shortIdOf uuid) "-" = false
  /\ JS.startsWith uuid (shortIdOf uuid) = true
  /\ (JS.includes uuid "-" = false -> shortIdOf uuid = uuid)
  /\ (shortIdOf uuid <> uuid -> JS.startsWith uuid (shortIdOf uuid ++ "-") = true).
Proof.
  unfold shortIdOf. split; [apply split_fst_no_separator|].
  split; [apply split_fst_prefix|].
  split; [apply split_fst_whole | apply split_fst_then_separator].
Qed.

Lemma shortIdOf_first_segment_witness :
  shortIdOf "nodashes" = "nodashes"
  /\ JS.startsWith "1b9d6bcd-bbfd" (shortIdOf "1b9d6bcd-bbfd" ++ "-") = true.
Proof.
  split.
  - apply (shortIdOf_first_segment "nodashes"). reflexivity.
  - apply (shortIdOf_first_segment "1b9d6bcd-bbfd"). simpl. discriminate.
Defined.

(** X2. [getAllDefaults] returns a record exactly when the project has
    metadata with a provider block holding an [awscloudformation] entry;
    otherwise reading the next property throws.  A missing [Region] is not
    an error: the record's region is then undefined.  In every record the
    policy name is ['Policy'] followed by the resource name, and the
    resource name holds no dash. *)
Theorem getAllDefaults_defined (uuid_v4 : string) (project : Project) :
  ((exists defaults, getAllDefaults uuid_v4 project = inr defaults)
   <-> exists meta p cfn,
         amplifyMeta project = Some meta
         /\ providers meta = Some p
         /\ awscloudformation p = Some cfn)
  /\ (amplifyMeta project = None ->
      getAllDefaults uuid_v4 project = inl (CannotReadProperty "providers"))
  /\ (forall meta, amplifyMeta project = Some meta -> providers meta = None ->
      getAllDefaults uuid_v4 project = inl (CannotReadProperty "awscloudformation"))
  /\ (forall meta p, amplifyMeta project = Some meta -> providers meta = Some p ->
      awscloudformation p = None ->
      getAllDefaults uuid_v4 project = inl (CannotReadProperty "Region"))
  /\ (forall defaults, getAllDefaults uuid_v4 project = inr defaults ->
      convertPolicyName defaults = "Policy" ++ resourceName defaults
      /\ JS.includes (resourceName defaults) "-" = false
      /\ (region defaults = None <->
          exists meta p cfn,
            amplifyMeta project = Some meta /\ providers meta = Some p
            /\ awscloudformation p = Some cfn /\ Region cfn = None)).
Proof.
  unfold getAllDefaults.
  destruct (amplifyMeta project) as [meta|] eqn:Hm.
  2:{ split; [|split; [|split; [|split]]]; try discriminate; [|reflexivity].
      split; [intros [d H] | intros [m [p [c [H _]]]]]; discriminate. }
  destruct (providers meta) as [p|] eqn:Hp.
  2:{ split; [|split; [|split; [|split]]]; try discriminate.
      - split; [intros [d H]; discriminate|].
        intros [m [p [c [H1 [H2 _]]]]]. congruence.
      - reflexivity.
      - intros m p' H1 H2. congruence. }
  destruct (awscloudformation p) as [cfn|] eqn:Hc.
  2:{ split; [|split; [|split; [|split]]]; try discriminate.
      - split; [intros [d H]; discriminate|].
        intros [m [p' [c [H1 [H2 H3]]]]]. congruence.
      - intros m H1 H2. congruence.
      - reflexivity. }
  split; [|split; [|split; [|split]]].
  - split; [intros _; now exists meta, p, cfn | intros _; eexists; reflexivity].
  - discriminate.
  - intros m H1 H2. congruence.
  - intros m p' H1 H2 H3. congruence.
  - intros d Hd. injection Hd as <-. simpl. split; [reflexivity|].
    split; [apply split_fst_no_separator|].
    split.
    + intros Hr. now exists meta, p, cfn.
    + intros [m [p' [c [H1 [H2 [H3 H4]]]]]]. congruence.
Qed.

Lemma getAllDefaults_defined_witness :
  getAllDefaults "1b9d6bcd-bbfd" {| amplifyMeta := None |}
  = inl (CannotReadProperty "providers").
Proof.
  apply (getAllDefaults_defined "1b9d6bcd-bbfd" {| amplifyMeta := None |}).
  reflexivity.
Defined.

End DefaultsEdgeCases.

(** ** Maps filled from a listing *)

Section MapFacts.
Import Walkthrough.

Context {X V : Type}.
Variable key : X -> string.
Variable val : X -> V.

Lemma prop_set (m : JS.Map V) (k k' : string) (v : V) :
  JS.prop (JS.set m k v) k' = if String.eqb k k' then Some v else JS.prop m k'.
Proof.
  induction m as [|[k0 v0] m IH]; simpl.
  - reflexivity.
  - destruct (String.eqb_spec k0 k) as [->|Hne]; simpl.
    + destruct (String.eqb k k'); reflexivity.
    + destruct (String.eqb_spec k0 k') as [->|Hne'].
      * destruct (String.eqb_spec k k'); [congruence | reflexivity].
      * exact IH.
Qed.

Lemma keys_set (m : JS.Map V) (k : string) (v : V) :
  JS.keys (JS.set m k v)
  = if existsb (String.eqb k) (JS.keys m) then JS.keys m else JS.keys m ++ [k].
Proof.
  induction m as [|[k0 v0] m IH]; simpl; [reflexivity|].
  rewrite (String.eqb_sym k k0).
  destruct (String.eqb k0 k); simpl; [reflexivity|].
  rewrite IH. now destruct (existsb (String.eqb k) (JS.keys m)).
Qed.

Lemma filter_filter_and {T} (f g : T -> bool) (l : list T) :
  filter f (filter g l) = filter (fun x => g x && f x) l.
Proof.
  induction l as [|x l IH]; simpl; [reflexivity|].
  destruct (g x); simpl; [destruct (f x)|]; now rewrite IH.
Qed.

Lemma filter_same {T} (f g : T -> bool) (l : list T) :
  (forall x, f x = g x) -> filter f l = filter g l.
Proof.
  intros H. induction l as [|x l IH]; simpl; [reflexivity|].
  now rewrite H, IH.
Qed.

(** The keys of a filled map: the old ones, then the new ones, each once,
    in order of first appearance. *)
Lemma keys_fill (l : list X) :
  forall m,
    JS.keys (fill key val l m)
    = JS.keys m
      ++ filter (fun k => negb (existsb (String.eqb k) (JS.keys m)))
                (distinct (map key l)).
Proof.
  unfold fill.
  induction l as [|x l IH]; intros m; simpl.
  - now rewrite List.app_nil_r.
  - rewrite IH, keys_set.
    destruct (existsb (String.eqb (key x)) (JS.keys m)) eqn:Hin; simpl.
    + f_equal. rewrite filter_filter_and. apply filter_same. intros k.
      destruct (String.eqb_spec k (key x)) as [->|Hne]; simpl.
      * now rewrite Hin.
      * reflexivity.
    + rewrite <- List.app_assoc. simpl. f_equal. f_equal.
      rewrite filter_filter_and. apply filter_same. intros k.
      rewrite existsb_app. simpl. rewrite orb_false_r, negb_orb.
      apply andb_comm.
Qed.

Lemma keys_fill_empty (l : list X) :
  JS.keys (fill key val l []) = distinct (map key l).
Proof.
  rewrite keys_fill. simpl.
  induction (distinct (map key l)) as [|k ks IH]; simpl; [reflexivity|].
  now rewrite IH.
Qed.

(** Looking a key up in a filled map finds the value of the last element
    with that key, or what the map held before. *)
Lemma prop_fill (l : list X) (k : string) :
  forall m,
    (exists x, lastWithKey key k x l /\ JS.prop (fill key val l m) k = Some (val x))
    \/ ((forall y, In y l -> key y <> k)
        /\ JS.prop (fill key val l m) k = JS.prop m k).
Proof.
  unfold fill.
  induction l as [|x l IH]; intros m; simpl.
  - right. split; [tauto | reflexivity].
  - destruct (IH (JS.set m (key x) (val x))) as [[y [[b [a [Hl [Hk Ha]]]] Hy]]|[Hnone Hp]].
    + left. exists y. split; [|exact Hy].
      exists (x :: b), a. rewrite Hl. repeat split; assumption.
    + rewrite prop_set in Hp.
      destruct (String.eqb_spec (key x) k) as [Hx|Hx].
      * left. exists x. split; [|exact Hp].
        exists [], l. repeat split; assumption.
      * right. split; [|exact Hp].
        intros y [<-|Hy]; auto.
Qed.

End MapFacts.

Section DistinctFacts.
Import Walkthrough.

Lemma distinct_In (l : list string) (x : string) : In x (distinct l) <-> In x l.
Proof.
  induction l as [|n l IH]; simpl; [tauto|].
  rewrite filter_In, IH. split.
  - intros [H|[H _]]; auto.
  - intros [H|H]; [now left|].
    destruct (String.eqb_spec x n) as [->|Hne]; [now left | right; now split].
Qed.

Lemma distinct_NoDup (l : list string) : NoDup (distinct l).
Proof.
  induction l as [|n l IH]; simpl; constructor.
  - rewrite filter_In, String.eqb_refl. intros [_ H]. discriminate.
  - now apply NoDup_filter.
Qed.

End DistinctFacts.

(** ** Cluster selection *)

Section ClusterSelection.
Import Meta Walkthrough.

Variable w : World.

Lemma serverlessClusters_fill (rawClusters : list DBCluster) :
  serverlessClusters rawClusters
  = fill DBClusterIdentifier (fun c => c) (filter isServerless rawClusters) [].
Proof.
  unfold serverlessClusters, fill. generalize (@nil (string * DBCluster)).
  induction rawClusters as [|c l IH]; intros m; simpl; [reflexivity|].
  unfold isServerless at 1.
  destruct (String.eqb (EngineMode c) "serverless"); simpl; apply IH.
Qed.

Lemma distinct_not_nil (l : list string) : l <> [] -> distinct l <> [].
Proof. destruct l; [contradiction | discriminate]. Qed.

Lemma size_keys {V} (m : JS.Map V) : JS.size m = List.length (JS.keys m).
Proof. unfold JS.size, JS.keys. now rewrite List.length_map. Qed.

Lemma serverlessClusters_size (rawClusters : list DBCluster) :
  filter isServerless rawClusters <> [] ->
  Nat.ltb 0 (JS.size (serverlessClusters rawClusters)) = true.
Proof.
  intros Hne. rewrite size_keys, serverlessClusters_fill, keys_fill_empty.
  destruct (filter isServerless rawClusters) as [|c l]; [contradiction|].
  reflexivity.
Qed.

(** The run of a selection that has serverless clusters to offer. *)
Lemma selectCluster_prompt_run inputs AWS ctx rawClusters input :
  describeDBClusters w AWS None = inr rawClusters ->
  nth_error inputs 1 = Some input ->
  filter isServerless rawClusters <> [] ->
  let eligible := filter isServerless rawClusters in
  let question :=
    questionFor input (map Some (distinct (map DBClusterIdentifier eligible))) in
  let answer := JS.prop (inquirer_prompt w question) (Input.key input) in
  selectCluster w inputs AWS ctx =
    {| outcome :=
         match JS.get (fill DBClusterIdentifier (fun c => c) eligible []) answer with
         | None => Thrown (TypeError "DBClusterArn")
         | Some c =>
             Returned {| selectedClusterArn := DBClusterArn c;
                         clusterResourceId := DbClusterResourceId c |}
         end;
       context := ctx;
       trace := [DescribeDBClusters AWS None; Prompt question] |}.
Proof.
  intros Hd Hin Hne eligible question answer. subst eligible question answer.
  unfold selectCluster, RDS_describeDBClusters, bind at 1, bind at 1, emit.
  cbv beta iota. rewrite Hd. cbn [await ret after List.app].
  rewrite (serverlessClusters_size _ Hne).
  unfold promptWalkthroughQuestion. rewrite Hin.
  unfold inquirer_prompt_call, bind, emit. cbn [ret after List.app].
  rewrite serverlessClusters_fill, keys_fill_empty. unfold questionFor.
  destruct (JS.get _ _); reflexivity.
Qed.

End ClusterSelection.

Section ClusterSelectionTheorems.
Import Meta Walkthrough.

(** X3. When the listing holds serverless clusters, [selectCluster] makes
    one request and prompts with question 1 over the identifiers of the
    serverless clusters, each once, in order of first appearance; no other
    cluster is offered. *)
Theorem selectCluster_choices
    (w : World) (inputs : list Input.t) (AWS : AwsClient) (ctx : Context)
    (rawClusters : list DBCluster) :
  describeDBClusters w AWS None = inr rawClusters ->
  existsb isServerless rawClusters = true ->
  let choices :=
    distinct (map DBClusterIdentifier (filter isServerless rawClusters)) in
  let r := selectCluster w inputs AWS ctx in
  trace r = DescribeDBClusters AWS None :: promptEvents inputs 1 (map Some choices)
  /\ context r = ctx
  /\ NoDup choices
  /\ (forall id, In id choices
        <-> exists c, In c rawClusters
                      /\ EngineMode c = "serverless"
                      /\ DBClusterIdentifier c = id).
Proof.
  intros Hd Hsome choices r.
  assert (Hne : filter isServerless rawClusters <> []).
  { apply existsb_exists in Hsome as [c [Hc Hs]]. intros Hnil.
    assert (Hin : In c (filter isServerless rawClusters)) by now apply filter_In.
    rewrite Hnil in Hin. destruct Hin. }
  split; [|split; [apply preserves_selectCluster|split; [apply distinct_NoDup|]]].
  - subst r. unfold promptEvents.
    destruct (nth_error inputs 1) as [input|] eqn:Hin.
    + now rewrite (selectCluster_prompt_run w _ _ ctx _ _ Hd Hin Hne).
    + unfold selectCluster, RDS_describeDBClusters, bind at 1, bind at 1, emit.
      cbv beta iota. rewrite Hd. cbn [await ret after List.app].
      rewrite (serverlessClusters_size _ Hne).
      unfold promptWalkthroughQuestion. rewrite Hin. reflexivity.
  - intros id. subst choices. rewrite distinct_In, in_map_iff. split.
    + intros [c [Hid Hc]]. apply filter_In in Hc as [Hc Hs].
      exists c. repeat split; try assumption. now apply String.eqb_eq.
    + intros [c [Hc [Hs Hid]]]. exists c. split; [exact Hid|].
      apply filter_In. split; [exact Hc | now apply String.eqb_eq].
Qed.

Lemma selectCluster_choices_witness :
  let r := selectCluster Sample.world Sample.inputs Sample.sampleAWS
             (Sample.contextWith [("blog", Sample.appsync)]) in
  filter isPrompt (trace r)
  = promptEvents Sample.inputs 1 [Some "orders-db"].
Proof.
  intros r.
  destruct (selectCluster_choices Sample.world Sample.inputs Sample.sampleAWS
              (Sample.contextWith [("blog", Sample.appsync)])
              [Sample.provisioned; Sample.cluster] eq_refl eq_refl) as [H _].
  subst r. rewrite H. reflexivity.
Defined.

(** X4. [selectCluster] returns the ARN and the resource ID of a
    serverless cluster of the listing that carries the chosen identifier,
    the last such cluster when several share it; an answer that is none of
    the offered identifiers (or no answer under the question's key) makes
    it throw a TypeError instead of returning. *)
Theorem selectCluster_selection
    (w : World) (inputs : list Input.t) (AWS : AwsClient) (ctx : Context)
    (rawClusters : list DBCluster) (input : Input.t) :
  describeDBClusters w AWS None = inr rawClusters ->
  nth_error inputs 1 = Some input ->
  existsb isServerless rawClusters = true ->
  let eligible := filter isServerless rawClusters in
  let choices := distinct (map DBClusterIdentifier eligible) in
  let answer :=
    JS.prop (inquirer_prompt w (questionFor input (map Some choices))) (Input.key input) in
  let r := selectCluster w inputs AWS ctx in
  (forall id, answer = Some id -> In id choices ->
     exists c,
       lastWithKey DBClusterIdentifier id c eligible
       /\ In c rawClusters
       /\ EngineMode c = "serverless"
       /\ outcome r = Returned {| selectedClusterArn := DBClusterArn c;
                                  clusterResourceId := DbClusterResourceId c |})
  /\ ((forall id, answer = Some id -> ~ In id choices) ->
      outcome r = Thrown (TypeError "DBClusterArn"))
  /\ (forall selection, outcome r = Returned selection ->
      exists id, answer = Some id /\ In id choices).
Proof.
  intros Hd Hin Hsome eligible choices answer r.
  assert (Hne : eligible <> []).
  { apply existsb_exists in Hsome as [c [Hc Hs]]. intros Hnil.
    assert (Hc' : In c eligible) by now apply filter_In.
    rewrite Hnil in Hc'. destruct Hc'. }
  assert (Hlast : forall id c, lastWithKey DBClusterIdentifier id c eligible ->
                    In c rawClusters /\ EngineMode c = "serverless" /\ In id choices).
  { intros id c [b [a [Hl [Hk _]]]].
    assert (Hc : In c eligible) by (rewrite Hl; apply in_or_app; right; now left).
    split; [|split].
    - now apply filter_In in Hc.
    - apply filter_In in Hc as [_ Hs]. now apply String.eqb_eq.
    - apply distinct_In, in_map_iff. now exists c. }
  assert (Hnone : forall id, (forall y, In y eligible -> DBClusterIdentifier y <> id) ->
                    ~ In id choices).
  { intros id Hall Hid. apply distinct_In, in_map_iff in Hid as [c [Hk Hc]].
    exact (Hall c Hc Hk). }
  subst r. rewrite (selectCluster_prompt_run w _ _ ctx _ _ Hd Hin Hne).
  fold eligible. fold choices. fold answer. cbn [outcome].
  destruct answer as [id|] eqn:Hanswer; cbn [JS.get].
  - destruct (prop_fill DBClusterIdentifier (fun c => c) eligible id [])
      as [[c [Hc Hp]]|[Hall Hp]]; rewrite Hp.
    + destruct (Hlast id c Hc) as [Hraw [Hmode Hid]].
      split; [|split].
      * intros id' [= <-] _. exists c. repeat split; assumption.
      * intros H. destruct (H id eq_refl Hid).
      * intros sel _. now exists id.
    + simpl. split; [|split].
      * intros id' [= <-] Hid. destruct (Hnone id Hall Hid).
      * reflexivity.
      * discriminate.
  - split; [|split].
    + discriminate.
    + reflexivity.
    + discriminate.
Qed.

Lemma selectCluster_selection_witness :
  exists c,
    In c [Sample.provisioned; Sample.cluster]
    /\ EngineMode c = "serverless"
    /\ outcome (selectCluster Sample.world Sample.inputs Sample.sampleAWS
                  (Sample.contextWith [("blog", Sample.appsync)]))
       = Returned {| selectedClusterArn := DBClusterArn c;
                     clusterResourceId := DbClusterResourceId c |}.
Proof.
  destruct (selectCluster_selection Sample.world Sample.inputs Sample.sampleAWS
              (Sample.contextWith [("blog", Sample.appsync)])
              [Sample.provisioned; Sample.cluster]
              {| Input.type := "list"; Input.key := "rdsClusterIdentifier";
                 Input.question := "Select the cluster:" |}
              eq_refl eq_refl eq_refl) as [H _].
  destruct (H "orders-db" eq_refl (or_introl eq_refl)) as [c [_ [Hin [Hmode Hr]]]].
  exists c. repeat split; assumption.
Defined.

End ClusterSelectionTheorems.

(** ** Secret selection without a naming-convention match *)

Section SecretFallback.
Import Meta Walkthrough.

Variable w : World.

Lemma scanSecrets_no_match clusterResourceId rawSecrets :
  forall secrets,
    Forall (fun s => matchesCluster clusterResourceId s = false) rawSecrets ->
    scanSecrets clusterResourceId rawSecrets secrets
    = (None, fill Name ARN rawSecrets secrets).
Proof.
  intros secrets H; revert secrets. unfold fill.
  induction H as [|s l Hs _ IH]; intros secrets; cbn [scanSecrets fold_left].
  - reflexivity.
  - unfold matchesCluster in Hs. rewrite Hs. apply IH.
Qed.

Lemma existsb_false_filter {T} (p : T -> bool) (l : list T) :
  existsb p l = false -> filter p l = [].
Proof.
  induction l as [|x l IH]; simpl; [reflexivity|].
  intros H. apply orb_false_iff in H as [Hx Hl]. now rewrite Hx, IH.
Qed.

(** With nothing listed the selection reports and exits. *)
Lemma chooseSecret_empty_run inputs clusterResourceId c :
  chooseSecret w inputs clusterResourceId [] c =
    {| outcome := Exited 0;
       context := c;
       trace := reportEvents ResourceCredentialsNotFoundError noSecretsMessage |}.
Proof. reflexivity. Qed.

(** With secrets listed and none matching, the selection prompts. *)
Lemma chooseSecret_prompt_run inputs clusterResourceId rawSecrets input c :
  Forall (fun s => matchesCluster clusterResourceId s = false) rawSecrets ->
  rawSecrets <> [] ->
  nth_error inputs 2 = Some input ->
  let question := questionFor input (map Some (distinct (map Name rawSecrets))) in
  let answer := JS.prop (inquirer_prompt w question) (Input.key input) in
  chooseSecret w inputs clusterResourceId rawSecrets c =
    {| outcome := Returned (JS.get (fill Name ARN rawSecrets []) answer);
       context := c;
       trace := [Prompt question] |}.
Proof.
  intros Hnone Hne Hin question answer. subst question answer.
  unfold chooseSecret. rewrite (scanSecrets_no_match _ _ [] Hnone).
  cbn [JS.truthy negb].
  assert (Hsize : Nat.ltb 0 (JS.size (fill Name ARN rawSecrets [])) = true).
  { rewrite size_keys, keys_fill_empty.
    destruct rawSecrets as [|s l]; [contradiction | reflexivity]. }
  rewrite Hsize. unfold promptWalkthroughQuestion. rewrite Hin.
  unfold inquirer_prompt_call, bind, emit. cbn [ret after List.app].
  rewrite keys_fill_empty. reflexivity.
Qed.

End SecretFallback.

Section SecretFallbackTheorems.
Import Meta Walkthrough.

(** X5. When the listing holds no secret at all, [getSecretStoreArn]
    shows no prompt: after the listing requests it prints and emits 'No RDS
    access credentials found in the AWS Secrect Manager.' as a
    [ResourceCredentialsNotFoundError] and exits with code 0. *)
Theorem getSecretStoreArn_no_secrets
    (w : World) (budget : nat) (inputs : list Input.t) (clusterResourceId : string)
    (AWS : AwsClient) (ctx : Context) :
  outcome (listAllSecrets w budget AWS ctx) = Returned [] ->
  let r := getSecretStoreArn w budget inputs clusterResourceId AWS ctx in
  outcome r = Exited 0
  /\ trace r
     = trace (listAllSecrets w budget AWS ctx)
       ++ [PrintError "No RDS access credentials found in the AWS Secrect Manager.";
           EmitError ResourceCredentialsNotFoundError
             "No RDS access credentials found in the AWS Secrect Manager."]
  /\ filter isPrompt (trace r) = [].
Proof.
  intros Hlist r. subst r. unfold getSecretStoreArn.
  rewrite (bind_returned _ _ ctx _ Hlist), after_outcome, after_trace.
  rewrite chooseSecret_empty_run. cbn [outcome trace].
  split; [reflexivity|]. split; [reflexivity|].
  rewrite filter_app. cbn [filter reportEvents isPrompt].
  rewrite List.app_nil_r. apply existsb_false_filter.
  apply (never_listAllSecrets w isPrompt); reflexivity.
Qed.

Lemma getSecretStoreArn_no_secrets_witness :
  outcome (getSecretStoreArn Sample.noSecretsWorld 1 Sample.inputs "cluster-ABC"
             Sample.sampleAWS (Sample.contextWith [("blog", Sample.appsync)]))
  = Exited 0.
Proof.
  apply (getSecretStoreArn_no_secrets Sample.noSecretsWorld 1 Sample.inputs "cluster-ABC"
           Sample.sampleAWS (Sample.contextWith [("blog", Sample.appsync)])).
  reflexivity.
Defined.

(** X6. When secrets are listed and no name starts with the cluster's
    prefix, [getSecretStoreArn] prompts once, with question 2, over the
    secret names, each once, in order of first appearance.  It returns the
    ARN of the last listed secret with the chosen name; an answer that is
    not a listed name gives undefined, not an error. *)
Theorem getSecretStoreArn_fallback
    (w : World) (budget : nat) (inputs : list Input.t) (clusterResourceId : string)
    (AWS : AwsClient) (ctx : Context)
    (rawSecrets : list SecretListEntry) (input : Input.t) :
  outcome (listAllSecrets w budget AWS ctx) = Returned rawSecrets ->
  Forall (fun s => JS.startsWith (Name s) ("rds-db-credentials/" ++ clusterResourceId) = false)
         rawSecrets ->
  rawSecrets <> [] ->
  nth_error inputs 2 = Some input ->
  let choices := distinct (map Name rawSecrets) in
  let question := questionFor input (map Some choices) in
  let answer := JS.prop (inquirer_prompt w question) (Input.key input) in
  let r := getSecretStoreArn w budget inputs clusterResourceId AWS ctx in
  filter isPrompt (trace r) = [Prompt question]
  /\ NoDup choices
  /\ (forall n, In n choices <-> exists s, In s rawSecrets /\ Name s = n)
  /\ (forall n, answer = Some n -> In n choices ->
        exists s, lastWithKey Name n s rawSecrets
                  /\ outcome r = Returned (Some (ARN s)))
  /\ ((forall n, answer = Some n -> ~ In n choices) -> outcome r = Returned None).
Proof.
  intros Hlist Hnone Hne Hin choices question answer r.
  subst r. unfold getSecretStoreArn.
  rewrite (bind_returned _ _ ctx _ Hlist), after_outcome, after_trace.
  rewrite (chooseSecret_prompt_run w _ _ _ _ _ Hnone Hne Hin).
  fold choices. fold question. fold answer. cbn [outcome trace].
  split.
  { rewrite filter_app. cbn [filter isPrompt].
    rewrite existsb_false_filter; [reflexivity|].
    apply (never_listAllSecrets w isPrompt); reflexivity. }
  split; [apply distinct_NoDup|].
  split.
  { intros n. subst choices. rewrite distinct_In, in_map_iff.
    split; intros [s [H1 H2]]; exists s; now split. }
  destruct answer as [n|]; cbn [JS.get].
  - destruct (prop_fill Name ARN rawSecrets n []) as [[s [Hs Hp]]|[Hall Hp]];
      rewrite Hp.
    + split.
      * intros n' [= <-] _. now exists s.
      * intros H. exfalso. apply (H n eq_refl). subst choices.
        apply distinct_In, in_map_iff. destruct Hs as [b [a [Hl [Hk _]]]].
        exists s. split; [exact Hk|]. rewrite Hl. apply in_or_app. right. now left.
    + simpl. split; [|reflexivity].
      intros n' [= <-] Hn. exfalso. subst choices.
      apply distinct_In, in_map_iff in Hn as [s [Hk Hs]]. exact (Hall s Hs Hk).
  - split; [discriminate | reflexivity].
Qed.

Lemma getSecretStoreArn_fallback_witness :
  let r := getSecretStoreArn Sample.noMatchWorld 1 Sample.inputs "cluster-ABC"
             Sample.sampleAWS (Sample.contextWith [("blog", Sample.appsync)]) in
  exists s,
    lastWithKey Name "api-key" s
      [Sample.otherSecret; Sample.adminSecret; Sample.rotatedSecret]
    /\ outcome r = Returned (Some (ARN s)).
Proof.
  intros r.
  destruct (getSecretStoreArn_fallback Sample.noMatchWorld 1 Sample.inputs "cluster-ABC"
              Sample.sampleAWS (Sample.contextWith [("blog", Sample.appsync)])
              [Sample.otherSecret; Sample.adminSecret; Sample.rotatedSecret]
              {| Input.type := "list"; Input.key := "rdsSecretStoreArn";
                 Input.question := "Select the secret:" |}
              eq_refl) as [_ [_ [_ [H _]]]].
  - repeat constructor.
  - discriminate.
  - reflexivity.
  - exact (H "api-key" eq_refl (or_introl eq_refl)).
Defined.

End SecretFallbackTheorems.

(** ** Rows that cannot be read, and provider calls that fail *)

Section BrokenRows.
Import Meta Walkthrough.

Variable w : World.

(** A row without cells stops the loop; what was pushed before stays. *)
Lemma pushRecords_broken valid good rest :
  forall databaseList,
    forallb hasFirstCell good = true ->
    pushRecords valid (good ++ [] :: rest) databaseList
    = (databaseList
         ++ filter (fun v => negb (JS.arrayIncludes valid v)) (map firstValue good),
       Some (TypeError "stringValue")).
Proof.
  induction good as [|record good IH]; intros databaseList Hcells;
    cbn [pushRecords map filter List.app].
  - rewrite List.app_nil_r; reflexivity.
  - simpl in Hcells. apply andb_true_iff in Hcells as [Hcell Hrest].
    destruct record as [|cell others]; [discriminate|]. cbn [firstValue].
    destruct (negb (JS.arrayIncludes valid (stringValue cell))).
    + rewrite (IH _ Hrest), <- List.app_assoc. reflexivity.
    + apply IH, Hrest.
Qed.

Local Arguments JS.includes : simpl never.
Local Arguments JS.arrayIncludes : simpl never.
Local Arguments validRecordValues : simpl never.
Local Arguments pushRecords : simpl never.
Local Arguments remediationMessage : simpl never.
Local Arguments nth_error : simpl never.
Local Arguments TypeError : simpl never.

Lemma selectDatabase_broken_run inputs clusterArn secretArn AWS ctx dbCluster good rest :
  describeDBClusters w AWS (Some clusterArn) = inr dbCluster ->
  executeStatement w AWS (statementParams clusterArn secretArn (classify dbCluster))
    = inr (good ++ [] :: rest) ->
  forallb hasFirstCell good = true ->
  let ctx' := withIsPostgres (classify dbCluster) ctx in
  let kept := candidates (classify dbCluster) good in
  let start :=
    [DescribeDBClusters AWS (Some clusterArn);
     SpinnerStart "Fetching Aurora Serverless cluster...";
     ExecuteStatement AWS (statementParams clusterArn secretArn (classify dbCluster));
     SpinnerFail (message (TypeError "stringValue"))] in
  selectDatabase w inputs clusterArn secretArn AWS ctx =
    if Nat.ltb 0 (List.length kept) then
      {| outcome := outcome (promptWalkthroughQuestion w inputs 3 kept ctx');
         context := ctx';
         trace := start ++ promptEvents inputs 3 kept |}
    else
      {| outcome := Exited 0;
         context := ctx';
         trace := start ++ reportEvents ResourceDoesNotExistError noDatabasesMessage |}.
Proof.
  intros Hd He Hcells ctx' kept start. subst ctx' kept start.
  unfold candidates, statementParams, classify in *.
  unfold selectDatabase, RDS_describeDBClusters, DataApi_executeStatement,
    bind, emit, attempt, setIsPostgres, readIsPostgres, catchBlock.
  simpl. rewrite Hd. simpl. rewrite He. simpl.
  rewrite (pushRecords_broken _ _ _ [] Hcells). simpl.
  destruct (Nat.ltb 0 _); [|reflexivity].
  unfold withIsPostgres.
  match goal with
  | |- context [promptWalkthroughQuestion w inputs 3 ?l ?c] =>
      pose proof (promptWalkthroughQuestion_trace w inputs 3 l c) as Ht;
      pose proof (preserves_promptWalkthroughQuestion w inputs 3 l c) as Hc;
      destruct (promptWalkthroughQuestion w inputs 3 l c) as [o c' t]
  end.
  simpl in Ht, Hc. subst c' t. reflexivity.
Qed.

End BrokenRows.

Section BrokenRowsTheorems.
Import Meta Walkthrough.

(** X7. A row without cells makes the read of [record[0].stringValue]
    throw inside the [try]: the rows after it are ignored, the names
    pushed before it stay in the list.  The spinner is marked failed, no
    remediation message is printed and nothing is rethrown; the names kept
    are the choices of the database prompt, and with none kept the run
    exits. *)
Theorem selectDatabase_broken_row
    (w : World) (inputs : list Input.t) (clusterArn : string)
    (secretArn : option string) (AWS : AwsClient) (ctx : Context)
    (dbCluster : list DBCluster) (good rest : list Record_) :
  describeDBClusters w AWS (Some clusterArn) = inr dbCluster ->
  executeStatement w AWS (statementParams clusterArn secretArn (classify dbCluster))
    = inr (good ++ [] :: rest) ->
  forallb hasFirstCell good = true ->
  let isPg := classify dbCluster in
  let kept := candidates isPg good in
  let r := selectDatabase w inputs clusterArn secretArn AWS ctx in
  fst (pushRecords (validRecordValues isPg) (good ++ [] :: rest) []) = kept
  /\ (exists text, In (SpinnerFail text) (trace r))
  /\ (forall text, ~ In (SpinnerSucceed text) (trace r))
  /\ ~ In (PrintError (remediationMessage secretArn)) (trace r)
  /\ (forall thrown, outcome r = Thrown thrown ->
        kept <> [] /\ nth_error inputs 3 = None)
  /\ (kept <> [] -> filter isPrompt (trace r) = promptEvents inputs 3 kept)
  /\ (kept = [] -> outcome r = Exited 0 /\ filter isPrompt (trace r) = []).
Proof.
  intros Hd He Hcells isPg kept r. subst r.
  rewrite (selectDatabase_broken_run w _ _ _ _ ctx _ _ _ Hd He Hcells).
  fold isPg. fold kept.
  split.
  { rewrite (pushRecords_broken _ _ _ [] Hcells). reflexivity. }
  assert (Hprompts : forall l, filter isPrompt (promptEvents inputs 3 l)
                               = promptEvents inputs 3 l).
  { intros l. unfold promptEvents. now destruct (nth_error inputs 3). }
  assert (Hevents : forall l e, In e (promptEvents inputs 3 l) -> isPrompt e = true).
  { intros l e. unfold promptEvents. destruct (nth_error inputs 3); simpl.
    - now intros [<-|[]].
    - intros []. }
  destruct kept as [|v l] eqn:Hkept;
    cbn [List.length Nat.ltb Nat.leb outcome trace List.app reportEvents].
  - split; [eexists; do 3 right; now left|].
    split; [intros text [H|[H|[H|[H|[H|[H|[]]]]]]]; discriminate|].
    split; [intros [H|[H|[H|[H|[H|[H|[]]]]]]]; discriminate|].
    split; [discriminate|].
    split; [intros H; now destruct H | intros _; split; reflexivity].
  - split; [eexists; do 3 right; now left|].
    split.
    { intros text [H|[H|[H|[H|H]]]]; try discriminate.
      apply Hevents in H. discriminate. }
    split.
    { intros [H|[H|[H|[H|H]]]]; try discriminate.
      apply Hevents in H. discriminate. }
    split.
    { intros thrown. unfold promptWalkthroughQuestion.
      destruct (nth_error inputs 3); [simpl; discriminate|].
      intros _. split; [discriminate | reflexivity]. }
    split; [intros _; apply Hprompts | discriminate].
Qed.

Lemma selectDatabase_broken_row_witness :
  let r := selectDatabase Sample.brokenRowWorld Sample.inputs (DBClusterArn Sample.cluster)
             (Some "arn:secret") Sample.sampleAWS
             (Sample.contextWith [("blog", Sample.appsync)]) in
  filter isPrompt (trace r) = promptEvents Sample.inputs 3 [Some "orders"].
Proof.
  intros r.
  destruct (selectDatabase_broken_row Sample.brokenRowWorld Sample.inputs
              (DBClusterArn Sample.cluster) (Some "arn:secret") Sample.sampleAWS
              (Sample.contextWith [("blog", Sample.appsync)])
              [Sample.cluster] [Sample.row "orders"] [Sample.row "users"]
              eq_refl eq_refl eq_refl) as [_ [_ [_ [_ [_ [H _]]]]]].
  apply H. discriminate.
Defined.

End BrokenRowsTheorems.

Section Rejections.
Import Meta Walkthrough.



End Rejections.

(** ** Whole runs *)

Section ExitFacts.
Import Meta Walkthrough.

Lemma reportsExits_quiet {A} (m : M A) :
  (forall c z, outcome (m c) <> Exited z) -> reportsExits m.
Proof. intros H c z Hz. now destruct (H c z). Qed.

Lemma reportsExits_bind {A B} (m : M A) (f : A -> M B) :
  reportsExits m -> (forall a, reportsExits (f a)) -> reportsExits (bind m f).
Proof.
  intros Hm Hf c z. unfold bind. specialize (Hm c). unfold exitReported in Hm.
  destruct (m c) as [[a| | |] c' t]; cbv beta iota; try discriminate.
  - rewrite after_outcome, after_trace. intros Hz.
    destruct (Hf a c' z Hz) as [Hzero [before [cls [msg [Hin Ht]]]]].
    split; [exact Hzero|]. exists (t ++ before), cls, msg.
    split; [exact Hin|]. rewrite Ht. apply List.app_assoc.
  - simpl. intros Hz. injection Hz as ->. apply (Hm z). reflexivity.
Qed.

Lemma reportsExits_attempt {A} (m : M A) : reportsExits m -> reportsExits (attempt m).
Proof.
  intros Hm c z. unfold attempt. specialize (Hm c z).
  destruct (m c) as [[a| | |] c' t]; cbv beta iota; try discriminate.
  simpl. intros Hz. injection Hz as ->. apply Hm. reflexivity.
Qed.

Lemma reportsExits_when (b : bool) (m : M unit) : reportsExits m -> reportsExits (when b m).
Proof. destruct b; [trivial|]. intros _. now apply reportsExits_quiet. Qed.

(** The terminate sequence of the source. *)
Lemma reportsExits_report {A} (cls : ErrorClass) (msg : string) :
  In (cls, msg) exitReports ->
  reportsExits (context_print_error msg ;;
                context_usageData_emitError cls msg ;;
                @exitOnNextTick A 0).
Proof.
  intros Hin c z Hz. simpl in Hz. injection Hz as <-.
  split; [reflexivity|]. exists [], cls, msg. split; [exact Hin | reflexivity].
Qed.

End ExitFacts.

(** Splits a goal about exits into the steps of a computation. *)
Ltac exits :=
  repeat first
    [ apply reportsExits_report; simpl; tauto
    | apply reportsExits_when
    | apply reportsExits_attempt
    | apply reportsExits_quiet; intros ? ?;
      solve [ discriminate | simpl; discriminate ]
    | apply reportsExits_bind; [|intros ?] ].

Section ExitTheorem.
Import Meta Walkthrough.

Variable w : World.

Lemma reportsExits_await {A} (x : JsError + A) : reportsExits (await x).
Proof. destruct x; exits. Qed.

Lemma reportsExits_promptWalkthroughQuestion inputs n choicesList :
  reportsExits (promptWalkthroughQuestion w inputs n choicesList).
Proof.
  unfold promptWalkthroughQuestion. destruct (nth_error inputs n); [|exits].
  unfold inquirer_prompt_call, emit. exits.
Qed.

Lemma reportsExits_findApi : reportsExits findApi.
Proof.
  unfold findApi, getProjectMeta.
  apply reportsExits_bind; [exits|]. intros amplifyMeta.
  apply reportsExits_bind; [exits|]. intros ?.
  apply reportsExits_bind.
  { destruct amplifyMeta as [meta|]; [destruct (api meta)|]; exits. }
  intros resources.
  apply reportsExits_bind; [apply reportsExits_await|]. intros appSyncApi. exits.
Qed.

Lemma reportsExits_selectCluster inputs AWS : reportsExits (selectCluster w inputs AWS).
Proof.
  unfold selectCluster, RDS_describeDBClusters, emit.
  apply reportsExits_bind.
  { apply reportsExits_bind; [exits | intros ?; apply reportsExits_await]. }
  intros rawClusters. destruct (Nat.ltb 0 _); [|exits].
  apply reportsExits_bind; [apply reportsExits_promptWalkthroughQuestion|].
  intros id. destruct (JS.get _ id); exits.
Qed.

Lemma reportsExits_listRemainingSecrets budget :
  forall AWS rawSecrets token,
    reportsExits (listRemainingSecrets w budget AWS rawSecrets token).
Proof.
  induction budget as [|budget IH]; intros AWS rawSecrets token; simpl;
    destruct (JS.truthy token); try solve [exits].
  apply reportsExits_bind; [|intros page; apply IH].
  unfold SecretsManager_listSecrets, emit.
  apply reportsExits_bind; [exits | intros ?; apply reportsExits_await].
Qed.

Lemma reportsExits_getSecretStoreArn budget inputs clusterResourceId AWS :
  reportsExits (getSecretStoreArn w budget inputs clusterResourceId AWS).
Proof.
  unfold getSecretStoreArn. apply reportsExits_bind.
  - unfold listAllSecrets, SecretsManager_listSecrets, emit.
    apply reportsExits_bind; [|intros page; apply reportsExits_listRemainingSecrets].
    apply reportsExits_bind; [exits | intros ?; apply reportsExits_await].
  - intros rawSecrets. unfold chooseSecret.
    destruct (scanSecrets clusterResourceId rawSecrets []) as [arn secrets].
    destruct (negb (JS.truthy arn)); [|exits].
    destruct (Nat.ltb 0 (JS.size secrets)); [|exits].
    apply reportsExits_bind; [apply reportsExits_promptWalkthroughQuestion | intros ?; exits].
Qed.

Lemma reportsExits_selectDatabase inputs clusterArn secretArn AWS :
  reportsExits (selectDatabase w inputs clusterArn secretArn AWS).
Proof.
  unfold selectDatabase, RDS_describeDBClusters, DataApi_executeStatement,
    setIsPostgres, readIsPostgres, catchBlock, context_print_error, emit.
  apply reportsExits_bind.
  { apply reportsExits_bind; [exits | intros ?; apply reportsExits_await]. }
  intros dbCluster. apply reportsExits_bind; [exits|]. intros ?.
  apply reportsExits_bind; [exits|]. intros isPg.
  apply reportsExits_bind; [exits|]. intros ?.
  apply reportsExits_bind.
  { apply reportsExits_attempt.
    apply reportsExits_bind; [exits | intros ?; apply reportsExits_await]. }
  intros [err|records].
  - apply reportsExits_bind.
    { apply reportsExits_bind; [|intros ?; exits].
      apply reportsExits_bind; [exits|]. intros ?.
      destruct (isAccessDenied err); exits. }
    intros databaseList. destruct (Nat.ltb 0 _);
      [apply reportsExits_promptWalkthroughQuestion|].
    apply (@reportsExits_report (option string)). simpl. tauto.
  - apply reportsExits_bind.
    { apply reportsExits_bind; [exits|]. intros isPg'.
      destruct (pushRecords _ records []) as [databaseList [err|]].
      - apply reportsExits_bind; [|intros ?; exits].
        apply reportsExits_bind; [exits|]. intros ?.
        destruct (isAccessDenied err); exits.
      - exits. }
    intros databaseList. destruct (Nat.ltb 0 _);
      [apply reportsExits_promptWalkthroughQuestion|].
    apply (@reportsExits_report (option string)). simpl. tauto.
Qed.

End ExitTheorem.

Section ExitReportTheorem.
Import Meta Walkthrough.

(** X9. Whenever [serviceWalkthrough] ends the process, the exit code is
    0 and the last two events are the message printed and the same message
    emitted as telemetry; the message is one of four: no AppSync API, no
    serverless cluster, no secrets (the only one emitted as a
    [ResourceCredentialsNotFoundError]) or no database. *)
Theorem serviceWalkthrough_exits_reported
    (w : World) (budget : nat) (defaultValuesFilename : string)
    (datasourceMetadata : DatasourceMetadata) (ctx : Context) (exitCode : Z) :
  let r := serviceWalkthrough w budget defaultValuesFilename datasourceMetadata ctx in
  outcome r = Exited exitCode ->
  exitCode = 0%Z
  /\ exists before cls msg,
       In (cls, msg)
          [ (ResourceDoesNotExistError, noApiMessage);
            (ResourceDoesNotExistError,
             "No properly configured Aurora Serverless clusters found.");
            (ResourceCredentialsNotFoundError,
             "No RDS access credentials found in the AWS Secrect Manager.");
            (ResourceDoesNotExistError, "No properly configured databases found.") ]
       /\ trace r = before ++ [PrintError msg; EmitError cls msg].
Proof.
  intros r. subst r. revert exitCode.
  change (exitReported
            (serviceWalkthrough w budget defaultValuesFilename datasourceMetadata ctx)).
  revert ctx.
  change (reportsExits
            (serviceWalkthrough w budget defaultValuesFilename datasourceMetadata)).
  unfold serviceWalkthrough.
  apply reportsExits_bind; [apply reportsExits_findApi|]. intros appSyncApi.
  apply reportsExits_bind; [apply reportsExits_promptWalkthroughQuestion|].
  intros selectedRegion.
  apply reportsExits_bind.
  { unfold getAwsClient, getConfiguredAWSClient_call, emit.
    apply reportsExits_bind; [exits | intros ?; apply reportsExits_await]. }
  intros AWS0.
  apply reportsExits_bind; [unfold AWS_config_update, emit; exits|]. intros AWS.
  apply reportsExits_bind; [apply reportsExits_selectCluster|]. intros cluster.
  apply reportsExits_bind; [apply reportsExits_getSecretStoreArn|]. intros arn.
  apply reportsExits_bind; [apply reportsExits_selectDatabase|]. intros db.
  exits.
Qed.

Lemma serviceWalkthrough_exits_reported_witness :
  let r := serviceWalkthrough Sample.noSecretsWorld 1 "defaults.js"
             Sample.datasourceMetadata (Sample.contextWith [("blog", Sample.appsync)]) in
  outcome r = Exited 0
  /\ exists before cls msg, trace r = before ++ [PrintError msg; EmitError cls msg].
Proof.
  intros r. split; [reflexivity|].
  destruct (serviceWalkthrough_exits_reported Sample.noSecretsWorld 1 "defaults.js"
              Sample.datasourceMetadata (Sample.contextWith [("blog", Sample.appsync)])
              0 eq_refl) as [_ [before [cls [msg [_ H]]]]].
  now exists before, cls, msg.
Defined.

End ExitReportTheorem.

Section PromptCountFacts.
Import Meta Walkthrough.

Lemma promptsBetween_quiet {A} (m : M A) : never isPrompt m -> promptsBetween 0 0 m.
Proof.
  intros H c. unfold promptCount. rewrite (existsb_false_filter _ _ (H c)).
  split; [apply Nat.le_refl | intros a _; apply Nat.le_refl].
Qed.

Lemma promptsBetween_weaken {A} (lo hi lo' hi' : nat) (m : M A) :
  promptsBetween lo hi m -> lo' <= lo -> hi <= hi' -> promptsBetween lo' hi' m.
Proof.
  intros H Hlo Hhi c. destruct (H c) as [H1 H2]. split; [lia|].
  intros a Ha. specialize (H2 a Ha). lia.
Qed.

(** A computation that does not return owes no prompt. *)
Lemma promptsBetween_stops {A} (lo hi lo' hi' : nat) (m : M A) :
  stops m -> promptsBetween lo hi m -> hi <= hi' -> promptsBetween lo' hi' m.
Proof.
  intros Hs H Hhi c. destruct (H c) as [H1 _]. split; [lia|].
  intros a Ha. now destruct (Hs c a).
Qed.

Lemma promptsBetween_bind {A B} (l1 h1 l2 h2 : nat) (m : M A) (f : A -> M B) :
  promptsBetween l1 h1 m ->
  (forall a, promptsBetween l2 h2 (f a)) ->
  promptsBetween (l1 + l2) (h1 + h2) (bind m f).
Proof.
  intros Hm Hf c. destruct (Hm c) as [Hhi Hlo]. unfold bind, promptCount in *.
  destruct (m c) as [[a| | |] c' t]; cbv beta iota; simpl in Hhi, Hlo.
  - rewrite after_outcome, after_trace, filter_app, List.length_app.
    destruct (Hf a c') as [Hhi' Hlo']. specialize (Hlo a eq_refl).
    unfold promptCount in Hhi', Hlo'.
    split; [lia|]. intros b Hb. specialize (Hlo' b Hb). lia.
  - simpl. split; [lia | discriminate].
  - simpl. split; [lia | discriminate].
  - simpl. split; [lia | discriminate].
Qed.

Variable w : World.

Lemma promptsBetween_promptWalkthroughQuestion inputs n choicesList :
  promptsBetween 1 1 (promptWalkthroughQuestion w inputs n choicesList).
Proof.
  intros c. unfold promptCount. rewrite promptWalkthroughQuestion_trace.
  unfold promptWalkthroughQuestion, promptEvents.
  destruct (nth_error inputs n); simpl; split; try lia; discriminate.
Qed.

Lemma report_stops {A} (cls : ErrorClass) (msg : string) :
  stops (context_print_error msg ;;
         context_usageData_emitError cls msg ;;
         @exitOnNextTick A 0).
Proof. intros c a. discriminate. Qed.

Lemma report_quiet {A} (cls : ErrorClass) (msg : string) :
  promptsBetween 0 0 (context_print_error msg ;;
                      context_usageData_emitError cls msg ;;
                      @exitOnNextTick A 0).
Proof. intros c. unfold promptCount. simpl. split; [lia | discriminate]. Qed.

Lemma promptsBetween_selectCluster inputs AWS :
  promptsBetween 1 1 (selectCluster w inputs AWS).
Proof.
  unfold selectCluster. apply (promptsBetween_bind 0 0 1 1).
  - apply promptsBetween_quiet. unfold RDS_describeDBClusters. walk.
  - intros rawClusters. destruct (Nat.ltb 0 _).
    + apply (promptsBetween_bind 1 1 0 0);
        [apply promptsBetween_promptWalkthroughQuestion|].
      intros id. apply promptsBetween_quiet. destruct (JS.get _ id); walk.
    + apply (promptsBetween_stops 0 0); [apply report_stops | apply report_quiet | lia].
Qed.

Lemma promptsBetween_getSecretStoreArn budget inputs clusterResourceId AWS :
  promptsBetween 0 1 (getSecretStoreArn w budget inputs clusterResourceId AWS).
Proof.
  unfold getSecretStoreArn. apply (promptsBetween_bind 0 0 0 1).
  - apply promptsBetween_quiet. apply never_listAllSecrets. reflexivity.
  - intros rawSecrets. unfold chooseSecret.
    destruct (scanSecrets clusterResourceId rawSecrets []) as [arn secrets].
    destruct (negb (JS.truthy arn)).
    + destruct (Nat.ltb 0 (JS.size secrets)).
      * apply (promptsBetween_weaken 1 1); [|lia|lia].
        apply (promptsBetween_bind 1 1 0 0);
          [apply promptsBetween_promptWalkthroughQuestion|].
        intros name. apply promptsBetween_quiet. walk.
      * apply (promptsBetween_stops 0 0); [apply report_stops | apply report_quiet | lia].
    + apply (promptsBetween_weaken 0 0); [|lia|lia]. apply promptsBetween_quiet. walk.
Qed.

Lemma never_prompt_catchBlock secretArn err : never isPrompt (catchBlock secretArn err).
Proof. unfold catchBlock, context_print_error. walk. Qed.

Lemma promptsBetween_selectDatabase inputs clusterArn secretArn AWS :
  promptsBetween 1 1 (selectDatabase w inputs clusterArn secretArn AWS).
Proof.
  unfold selectDatabase.
  apply (promptsBetween_bind 0 0 1 1).
  { apply promptsBetween_quiet. unfold RDS_describeDBClusters. walk. }
  intros dbCluster. apply (promptsBetween_bind 0 0 1 1).
  { apply promptsBetween_quiet. walk. }
  intros ?. apply (promptsBetween_bind 0 0 1 1).
  { apply promptsBetween_quiet. walk. }
  intros isPg. apply (promptsBetween_bind 0 0 1 1).
  { apply promptsBetween_quiet. walk. }
  intros ?. apply (promptsBetween_bind 0 0 1 1).
  { apply promptsBetween_quiet. unfold DataApi_executeStatement. walk. }
  intros dataApiResult. apply (promptsBetween_bind 0 0 1 1).
  { apply promptsBetween_quiet. destruct dataApiResult as [err|records].
    - apply never_bind; [apply never_prompt_catchBlock | walk].
    - apply never_bind; [walk|]. intros isPg'.
      destruct (pushRecords _ records []) as [databaseList [err|]].
      + apply never_bind; [apply never_prompt_catchBlock | walk].
      + walk. }
  intros databaseList. destruct (Nat.ltb 0 _).
  - apply promptsBetween_promptWalkthroughQuestion.
  - apply (promptsBetween_stops 0 0); [apply report_stops | apply report_quiet | lia].
Qed.

End PromptCountFacts.

Section PromptCountTheorem.
Import Meta Walkthrough.

(** X10. No run of [serviceWalkthrough] shows more than four prompts, and
    a run that returns a result has shown at least three (region, cluster,
    database; the secret prompt is the fourth).  Cluster, secret and
    database selection show at most one prompt each. *)
Theorem serviceWalkthrough_prompt_count
    (w : World) (budget : nat) (defaultValuesFilename : string)
    (datasourceMetadata : DatasourceMetadata) (ctx : Context) :
  let r := serviceWalkthrough w budget defaultValuesFilename datasourceMetadata ctx in
  List.length (filter isPrompt (trace r)) <= 4
  /\ (forall result, outcome r = Returned result ->
        3 <= List.length (filter isPrompt (trace r)))
  /\ (forall inputs AWS c,
        List.length (filter isPrompt (trace (selectCluster w inputs AWS c))) <= 1)
  /\ (forall inputs clusterResourceId AWS c,
        List.length
          (filter isPrompt
             (trace (getSecretStoreArn w budget inputs clusterResourceId AWS c))) <= 1)
  /\ (forall inputs clusterArn secretArn AWS c,
        List.length
          (filter isPrompt
             (trace (selectDatabase w inputs clusterArn secretArn AWS c))) <= 1).
Proof.
  intros r.
  assert (H : promptsBetween 3 4
                (serviceWalkthrough w budget defaultValuesFilename datasourceMetadata)).
  { unfold serviceWalkthrough.
    apply (promptsBetween_bind 0 0 3 4).
    { apply promptsBetween_quiet. apply never_findApi; reflexivity. }
    intros appSyncApi. apply (promptsBetween_bind 1 1 2 3);
      [apply promptsBetween_promptWalkthroughQuestion|].
    intros selectedRegion. apply (promptsBetween_bind 0 0 2 3).
    { apply promptsBetween_quiet. unfold getAwsClient, getConfiguredAWSClient_call. walk. }
    intros AWS0. apply (promptsBetween_bind 0 0 2 3).
    { apply promptsBetween_quiet. unfold AWS_config_update. walk. }
    intros AWS. apply (promptsBetween_bind 1 1 1 2);
      [apply promptsBetween_selectCluster|].
    intros cluster. apply (promptsBetween_bind 0 1 1 1);
      [apply promptsBetween_getSecretStoreArn|].
    intros arn. apply (promptsBetween_bind 1 1 0 0);
      [apply promptsBetween_selectDatabase|].
    intros db. apply promptsBetween_quiet. walk. }
  destruct (H ctx) as [Hhi Hlo]. fold r in Hhi, Hlo.
  split; [exact Hhi|]. split; [exact Hlo|].
  split; [|split].
  - intros inputs AWS c. apply (promptsBetween_selectCluster w inputs AWS c).
  - intros inputs rid AWS c. apply (promptsBetween_getSecretStoreArn w budget inputs rid AWS c).
  - intros inputs arn sec AWS c. apply (promptsBetween_selectDatabase w inputs arn sec AWS c).
Qed.

Lemma serviceWalkthrough_prompt_count_witness :
  let r := serviceWalkthrough Sample.world 1 "defaults.js" Sample.datasourceMetadata
             (Sample.contextWith [("blog", Sample.appsync)]) in
  3 <= List.length (filter isPrompt (trace r)).
Proof.
  intros r.
  destruct (serviceWalkthrough_prompt_count Sample.world 1 "defaults.js"
              Sample.datasourceMetadata (Sample.contextWith [("blog", Sample.appsync)]))
    as [_ [H _]].
  eapply H. reflexivity.
Defined.

End PromptCountTheorem.

Section PassingCheck.
Import Meta Walkthrough.

(** X11. A project whose first resource tagged ['AppSync'] (keys being
    distinct) has a non-empty name passes the precondition check in
    silence: nothing is printed or emitted, the context is unchanged and
    that name is handed on; the walkthrough's first event is then the
    region prompt. *)
Theorem findApi_passes
    (w : World) (budget : nat) (defaultValuesFilename : string)
    (datasourceMetadata : DatasourceMetadata) (ctx : Context) (name : string) :
  NoDup (apiKeys (projectMeta ctx)) ->
  hd_error (taggedWith "AppSync" (projectMeta ctx)) = Some name ->
  name <> EmptyString ->
  findApi ctx = {| outcome := Returned (Some name); context := ctx; trace := [] |}
  /\ exists rest,
       trace (serviceWalkthrough w budget defaultValuesFilename datasourceMetadata ctx)
       = promptEvents (inputs datasourceMetadata) 0
           (map Some (availableRegions datasourceMetadata))
         ++ rest.
Proof.
  intros Hnd Hhd Hname.
  assert (Hfind : findApi ctx
                  = {| outcome := Returned (Some name); context := ctx; trace := [] |}).
  { destruct (findApi_cases ctx)
      as [H|[[err H]|[name' [rs [H [_ [Hkeys [Hloop Htag]]]]]]]].
    - (* reported: then nothing is tagged, or the first tagged name is empty *)
      exfalso. revert H Hnd Hhd. unfold findApi, bind, getProjectMeta, taggedWith, apiKeys.
      simpl. destruct (projectMeta ctx) as [meta|]; simpl; [|discriminate].
      destruct (api meta) as [resources|]; simpl; [|discriminate].
      destruct resources as [|kr resources]; [discriminate|].
      intros H Hnd Hhd.
      pose proof (findAppSyncApi_first (kr :: resources) (kr :: resources)
                    (fun k r => prop_NoDup _ k r Hnd)) as Hloop.
      rewrite Hhd in Hloop. simpl in H, Hloop.
      change (fst kr :: JS.keys resources) with (JS.keys (kr :: resources)) in H.
      cbn [JS.keys map] in Hloop. cbn [JS.keys map] in H.
      rewrite Hloop in H. simpl in H.
      destruct name; [contradiction | discriminate].
    - exfalso. revert H Hnd Hhd. unfold findApi, bind, getProjectMeta, taggedWith, apiKeys.
      simpl. destruct (projectMeta ctx) as [meta|]; simpl; [|discriminate].
      destruct (api meta) as [resources|]; simpl; [|discriminate].
      destruct resources as [|kr resources]; [discriminate|].
      intros H Hnd Hhd.
      pose proof (findAppSyncApi_first (kr :: resources) (kr :: resources)
                    (fun k r => prop_NoDup _ k r Hnd)) as Hloop.
      rewrite Hhd in Hloop. simpl in H, Hloop.
      cbn [JS.keys map] in Hloop. cbn [JS.keys map] in H.
      rewrite Hloop in H. simpl in H.
      destruct name; [contradiction | discriminate].
    - rewrite H. rewrite Hkeys in Hnd.
      rewrite (findAppSyncApi_first rs rs (fun k r => prop_NoDup _ k r Hnd)) in Hloop.
      rewrite <- Htag, Hhd in Hloop. now injection Hloop as ->. }
  split; [exact Hfind|].
  unfold serviceWalkthrough.
  rewrite (bind_returned _ _ ctx (Some name)) by now rewrite Hfind.
  rewrite Hfind. cbn [trace context]. rewrite after_trace. cbn [List.app].
  unfold bind at 1.
  pose proof (promptWalkthroughQuestion_trace w (inputs datasourceMetadata) 0
                (map Some (availableRegions datasourceMetadata)) ctx) as Ht.
  destruct (promptWalkthroughQuestion w (inputs datasourceMetadata) 0
              (map Some (availableRegions datasourceMetadata)) ctx)
    as [[a| | |] c' t]; cbv beta iota; simpl in Ht; subst t.
  - rewrite after_trace. eexists. reflexivity.
  - exists []. now rewrite List.app_nil_r.
  - exists []. now rewrite List.app_nil_r.
  - exists []. now rewrite List.app_nil_r.
Qed.

Lemma findApi_passes_witness :
  findApi (Sample.contextWith [("notes", Sample.lambda); ("blog", Sample.appsync)])
  = {| outcome := Returned (Some "blog");
       context := Sample.contextWith [("notes", Sample.lambda); ("blog", Sample.appsync)];
       trace := [] |}.
Proof.
  apply (findApi_passes Sample.world 1 "defaults.js" Sample.datasourceMetadata
           (Sample.contextWith [("notes", Sample.lambda); ("blog", Sample.appsync)])
           "blog").
  - simpl. repeat constructor; simpl; intuition discriminate.
  - reflexivity.
  - discriminate.
Defined.

End PassingCheck.

Section AlwaysFacts.
Import Meta Walkthrough.

Context {A B : Type}.
Variable P : event -> Prop.

Lemma always_ret (a : A) : always P (ret a).
Proof. intros c e []. Qed.

Lemma always_throw (err : JsError) : always P (@throw A err).
Proof. intros c e []. Qed.

Lemma always_exit (z : Z) : always P (@exitOnNextTick A z).
Proof. intros c e []. Qed.

Lemma always_running : always P (@running A).
Proof. intros c e []. Qed.

Lemma always_await (x : JsError + A) : always P (await x).
Proof. destruct x; intros c e []. Qed.

Lemma always_bind (m : M A) (f : A -> M B) :
  always P m -> (forall a, always P (f a)) -> always P (bind m f).
Proof.
  intros Hm Hf c e. unfold bind. specialize (Hm c).
  destruct (m c) as [[a| | |] c' t]; cbv beta iota; simpl in Hm; try apply Hm.
  rewrite after_trace. intros Hin. apply in_app_or in Hin as [Hin|Hin].
  - now apply Hm.
  - exact (Hf a c' e Hin).
Qed.

(** Only the values [m] can return matter for what follows it. *)
Lemma always_bind_returned (m : M A) (f : A -> M B) :
  always P m ->
  (forall c a, outcome (m c) = Returned a -> always P (f a)) ->
  always P (bind m f).
Proof.
  intros Hm Hf c e. unfold bind. specialize (Hm c). specialize (Hf c).
  destruct (m c) as [[a| | |] c' t]; cbv beta iota; simpl in Hm; try apply Hm.
  rewrite after_trace. intros Hin. apply in_app_or in Hin as [Hin|Hin].
  - now apply Hm.
  - exact (Hf a eq_refl c' e Hin).
Qed.

Lemma always_attempt (m : M A) : always P m -> always P (attempt m).
Proof.
  intros Hm c e. unfold attempt. specialize (Hm c e).
  destruct (m c) as [[a| | |] c' t]; exact Hm.
Qed.

End AlwaysFacts.

Section AlwaysUnitFacts.
Import Meta Walkthrough.

Variable P : event -> Prop.

Lemma always_emit (e : event) : P e -> always P (emit e).
Proof. intros H c e' [<-|[]]. exact H. Qed.

Lemma always_when (b : bool) (m : M unit) : always P m -> always P (when b m).
Proof. destruct b; [trivial | intros _ c e []]. Qed.

Lemma always_state (A : Type) (m : M A) :
  (forall c, trace (m c) = []) -> always P m.
Proof. intros H c e. rewrite H. intros []. Qed.

End AlwaysUnitFacts.

(** Splits a goal about every event of a computation into its steps;
    [tac] settles the property for one event. *)
Ltac steps tac :=
  repeat first
    [ apply always_ret | apply always_throw | apply always_exit
    | apply always_running | apply always_await
    | apply always_when | apply always_attempt
    | apply always_emit; tac
    | apply always_state; intros ?; reflexivity
    | apply always_bind; [|intros ?] ].

Section ClientFacts.
Import Meta Walkthrough.

Variable w : World.
Variable AWS : AwsClient.

Lemma through_promptWalkthroughQuestion inputs n choicesList :
  always (inRegion (config_region AWS)) (promptWalkthroughQuestion w inputs n choicesList).
Proof.
  unfold promptWalkthroughQuestion. destruct (nth_error inputs n);
    unfold inquirer_prompt_call;
    steps ltac:(simpl; trivial).
Qed.


Ltac through := simpl; trivial.

Lemma through_selectCluster inputs : always (inRegion (config_region AWS)) (selectCluster w inputs AWS).
Proof.
  unfold selectCluster, RDS_describeDBClusters,
    context_print_error, context_usageData_emitError.
  apply always_bind; [steps through|]. intros rawClusters.
  destruct (Nat.ltb 0 _); [|steps through].
  apply always_bind; [apply through_promptWalkthroughQuestion|].
  intros id. destruct (JS.get _ id); steps through.
Qed.

Lemma through_listRemainingSecrets budget :
  forall rawSecrets token,
    always (inRegion (config_region AWS)) (listRemainingSecrets w budget AWS rawSecrets token).
Proof.
  induction budget as [|budget IH]; intros rawSecrets token; simpl;
    destruct (JS.truthy token); try solve [steps through].
  apply always_bind; [|intros page; apply IH].
  unfold SecretsManager_listSecrets. steps through.
Qed.

Lemma through_getSecretStoreArn budget inputs clusterResourceId :
  always (inRegion (config_region AWS)) (getSecretStoreArn w budget inputs clusterResourceId AWS).
Proof.
  unfold getSecretStoreArn. apply always_bind.
  - unfold listAllSecrets, SecretsManager_listSecrets.
    apply always_bind; [steps through|]. intros page.
    apply through_listRemainingSecrets.
  - intros rawSecrets. unfold chooseSecret.
    destruct (scanSecrets clusterResourceId rawSecrets []) as [arn secrets].
    destruct (negb (JS.truthy arn)); [|steps through].
    destruct (Nat.ltb 0 (JS.size secrets)).
    + apply always_bind; [apply through_promptWalkthroughQuestion | intros ?; steps through].
    + unfold context_print_error, context_usageData_emitError. steps through.
Qed.

Lemma through_selectDatabase inputs clusterArn secretArn :
  always (inRegion (config_region AWS)) (selectDatabase w inputs clusterArn secretArn AWS).
Proof.
  unfold selectDatabase, RDS_describeDBClusters, DataApi_executeStatement,
    catchBlock, context_print_error, context_usageData_emitError.
  apply always_bind; [steps through|]. intros dbCluster.
  apply always_bind; [steps through|]. intros ?.
  apply always_bind; [steps through|]. intros isPg.
  apply always_bind; [steps through|]. intros ?.
  apply always_bind; [steps through|]. intros dataApiResult.
  apply always_bind.
  { destruct dataApiResult as [err|records]; [steps through|].
    apply always_bind; [steps through|]. intros isPg'.
    destruct (pushRecords _ records []) as [databaseList [err|]]; steps through. }
  intros databaseList. destruct (Nat.ltb 0 _);
    [apply through_promptWalkthroughQuestion | steps through].
Qed.

End ClientFacts.

Section RegionTheorem.
Import Meta Walkthrough.

Lemma promptWalkthroughQuestion_run (w : World) inputs n choicesList input c :
  nth_error inputs n = Some input ->
  promptWalkthroughQuestion w inputs n choicesList c =
    {| outcome :=
         Returned (JS.prop (inquirer_prompt w (questionFor input choicesList))
                           (Input.key input));
       context := c;
       trace := [Prompt (questionFor input choicesList)] |}.
Proof. intros Hin. unfold promptWalkthroughQuestion. now rewrite Hin. Qed.

(** Every event of the walkthrough that names a region names the answer
    to the region prompt. *)
Lemma serviceWalkthrough_inRegion (w : World) budget defaultValuesFilename
    datasourceMetadata input :
  nth_error (inputs datasourceMetadata) 0 = Some input ->
  let question := questionFor input (map Some (availableRegions datasourceMetadata)) in
  let selected := JS.prop (inquirer_prompt w question) (Input.key input) in
  always (inRegion selected)
    (serviceWalkthrough w budget defaultValuesFilename datasourceMetadata).
Proof.
  intros Hin question selected. unfold serviceWalkthrough.
  apply always_bind.
  { intros c e He.
    destruct (findApi_cases c) as [H|[[err H]|[name [rs [H _]]]]];
      rewrite H in He; simpl in He.
    - destruct He as [<-|[<-|[]]]; exact I.
    - destruct He.
    - destruct He. }
  intros appSyncApi. apply always_bind_returned.
  { apply through_promptWalkthroughQuestion with (AWS := {| config_region := selected |}). }
  intros c region Hregion.
  rewrite (promptWalkthroughQuestion_run w _ _ _ _ _ Hin) in Hregion.
  injection Hregion as <-. fold question. fold selected.
  apply always_bind.
  { unfold getAwsClient, getConfiguredAWSClient_call. steps ltac:(simpl; trivial). }
  intros AWS0. apply always_bind_returned.
  { unfold AWS_config_update. steps ltac:(simpl; trivial). }
  intros c' AWS HAWS. injection HAWS as <-.
  apply always_bind;
    [apply through_selectCluster with (AWS := {| config_region := selected |})|].
  intros cl. apply always_bind;
    [apply through_getSecretStoreArn with (AWS := {| config_region := selected |})|].
  intros arn. apply always_bind;
    [apply through_selectDatabase with (AWS := {| config_region := selected |})|].
  intros db. apply always_ret.
Qed.

Lemma bind_emit_first {A B} (e : event) (m : M A) (K : A -> M B) (c : Context) :
  exists rest, trace (bind (emit e ;; m) K c) = e :: rest.
Proof.
  unfold bind, emit. cbv beta iota.
  destruct (m c) as [[a| | |] c' t]; cbn [after List.app];
    try (eexists; reflexivity).
  destruct (K a c') as [o c'' t']. simpl. eexists; reflexivity.
Qed.

(** X12. The region comes first: a run that reaches the provider has
    started with the region prompt, over the available regions, followed
    by the client acquisition for ['aurora-serverless'] / ['list'].  The
    client is then configured with the answer, every SDK call of the run
    goes through a client of that region, and a returned result carries it
    as its region. *)
Theorem serviceWalkthrough_region
    (w : World) (budget : nat) (defaultValuesFilename : string)
    (datasourceMetadata : DatasourceMetadata) (ctx : Context) (input : Input.t) :
  nth_error (inputs datasourceMetadata) 0 = Some input ->
  let question := questionFor input (map Some (availableRegions datasourceMetadata)) in
  let selected := JS.prop (inquirer_prompt w question) (Input.key input) in
  let r := serviceWalkthrough w budget defaultValuesFilename datasourceMetadata ctx in
  (forall e, In e (trace r) -> isProviderCall e = true ->
     exists rest,
       trace r = Prompt question
                 :: GetConfiguredAWSClient "aurora-serverless" "list" :: rest)
  /\ (forall region, In (ConfigUpdate region) (trace r) -> region = selected)
  /\ (forall e aws, In e (trace r) -> sdkClient e = Some aws ->
        config_region aws = selected)
  /\ (forall result, outcome r = Returned result -> region result = selected).
Proof.
  intros Hin question selected r.
  pose proof (serviceWalkthrough_inRegion w budget defaultValuesFilename
                datasourceMetadata input Hin ctx) as Hall.
  fold question selected r in Hall.
  split; [|split; [|split]].
  - subst r. unfold serviceWalkthrough.
    destruct (findApi_cases ctx) as [H|[[err H]|[name [rs [H _]]]]].
    + rewrite (bind_exited _ _ _ 0) by now rewrite H.
      rewrite H. simpl. intros e [<-|[<-|[]]]; discriminate.
    + rewrite (bind_thrown _ _ _ err) by now rewrite H.
      rewrite H. simpl. intros e [].
    + intros e _ _.
      rewrite (bind_returned _ _ ctx (Some name)) by now rewrite H.
      rewrite H. cbn [trace context]. rewrite after_trace. cbn [List.app].
      rewrite (bind_returned _ _ ctx selected)
        by now rewrite (promptWalkthroughQuestion_run w _ _ _ _ _ Hin).
      rewrite (promptWalkthroughQuestion_run w _ _ _ _ _ Hin).
      cbn [trace context]. rewrite after_trace. cbn [List.app].
      unfold getAwsClient, getConfiguredAWSClient_call.
      match goal with
      | |- context [trace (bind (emit ?e ;; ?m) ?K ctx)] =>
          destruct (bind_emit_first e m K ctx) as [rest Hrest]; rewrite Hrest
      end.
      now exists rest.
  - intros region Hr. exact (Hall _ Hr).
  - intros e aws He Hc. specialize (Hall e He).
    destruct e; simpl in Hc; try discriminate; injection Hc as <-; exact Hall.
  - intros result Hres. subst r. unfold serviceWalkthrough in Hres.
    apply bind_returned_inv in Hres as [api0 [_ Hres]].
    apply bind_returned_inv in Hres as [reg [Hreg Hres]].
    rewrite (promptWalkthroughQuestion_run w _ _ _ _ _ Hin) in Hreg.
    injection Hreg as <-.
    repeat (apply bind_returned_inv in Hres as [? [_ Hres]]).
    now injection Hres as <-.
Qed.

Lemma serviceWalkthrough_region_witness :
  let r := serviceWalkthrough Sample.world 1 "defaults.js" Sample.datasourceMetadata
             (Sample.contextWith [("blog", Sample.appsync)]) in
  exists result, outcome r = Returned result /\ region result = Some "us-east-1".
Proof.
  intros r.
  destruct (serviceWalkthrough_region Sample.world 1 "defaults.js"
              Sample.datasourceMetadata (Sample.contextWith [("blog", Sample.appsync)])
              {| Input.type := "list"; Input.key := "region";
                 Input.question := "Provide the region:" |} eq_refl)
    as [_ [_ [_ H]]].
  eexists. split; [reflexivity|]. apply H. reflexivity.
Defined.

End RegionTheorem.

Section ResultFacts.
Import Meta Walkthrough.

Lemma bind_returned_parts {A B} (m : M A) (f : A -> M B) c b :
  outcome (bind m f c) = Returned b ->
  exists a,
    outcome (m c) = Returned a
    /\ outcome (f a (context (m c))) = Returned b
    /\ trace (bind m f c) = trace (m c) ++ trace (f a (context (m c)))
    /\ context (bind m f c) = context (f a (context (m c))).
Proof.
  unfold bind. destruct (m c) as [[a| | |] c' t]; try (simpl; discriminate).
  rewrite after_outcome, after_trace, after_context. intros H. now exists a.
Qed.

Lemma existsb_false_In {T} (p : T -> bool) (l : list T) (x : T) :
  existsb p l = false -> In x l -> p x = false.
Proof.
  intros H Hin. destruct (p x) eqn:Hx; [|reflexivity].
  rewrite <- H. symmetry. apply existsb_exists. now exists x.
Qed.

Variable w : World.

Lemma never_database_selectCluster inputs AWS :
  never isDatabaseCall (selectCluster w inputs AWS).
Proof.
  unfold selectCluster, RDS_describeDBClusters,
    context_print_error, context_usageData_emitError.
  apply never_bind; [walk|]. intros rawClusters.
  destruct (Nat.ltb 0 _); [|walk].
  apply never_bind; [apply never_promptWalkthroughQuestion; reflexivity|].
  intros id. destruct (JS.get _ id); walk.
Qed.

Lemma never_database_getSecretStoreArn budget inputs clusterResourceId AWS :
  never isDatabaseCall (getSecretStoreArn w budget inputs clusterResourceId AWS).
Proof.
  unfold getSecretStoreArn.
  apply never_bind; [apply never_listAllSecrets; reflexivity|].
  intros rawSecrets. apply never_chooseSecret; reflexivity.
Qed.

Lemma concerns_quiet clusterArn secretArn e :
  isDatabaseCall e = false -> concerns clusterArn secretArn e.
Proof.
  destruct e as [| | | | | | | |aws id|aws params|aws params]; simpl; trivial.
  - destruct id; [discriminate | trivial].
  - discriminate.
Qed.

Lemma concerns_selectDatabase inputs clusterArn secretArn AWS :
  always (concerns clusterArn secretArn)
         (selectDatabase w inputs clusterArn secretArn AWS).
Proof.
  unfold selectDatabase, RDS_describeDBClusters, DataApi_executeStatement,
    catchBlock, context_print_error, context_usageData_emitError.
  apply always_bind; [steps ltac:(simpl; auto)|]. intros dbCluster.
  apply always_bind; [steps ltac:(simpl; auto)|]. intros ?.
  apply always_bind; [steps ltac:(simpl; auto)|]. intros isPg.
  apply always_bind; [steps ltac:(simpl; auto)|]. intros ?.
  apply always_bind; [steps ltac:(simpl; auto)|]. intros dataApiResult.
  apply always_bind.
  { destruct dataApiResult as [err|records]; [steps ltac:(simpl; auto)|].
    apply always_bind; [steps ltac:(simpl; auto)|]. intros isPg'.
    destruct (pushRecords _ records []) as [databaseList [err|]];
      steps ltac:(simpl; auto). }
  intros databaseList. destruct (Nat.ltb 0 _); [|steps ltac:(simpl; auto)].
  unfold promptWalkthroughQuestion. destruct (nth_error inputs 3);
    unfold inquirer_prompt_call; steps ltac:(simpl; auto).
Qed.

(** A database step that returns has described the cluster and executed
    the statement. *)
Lemma selectDatabase_returned_executed inputs clusterArn secretArn AWS c v :
  outcome (selectDatabase w inputs clusterArn secretArn AWS c) = Returned v ->
  exists dbCluster,
    isPostgres (context (selectDatabase w inputs clusterArn secretArn AWS c))
    = Some (classify dbCluster)
    /\ In (ExecuteStatement AWS (statementParams clusterArn secretArn (classify dbCluster)))
          (trace (selectDatabase w inputs clusterArn secretArn AWS c)).
Proof.
  destruct (describeDBClusters w AWS (Some clusterArn)) as [err|dbCluster] eqn:Hd.
  - unfold selectDatabase, RDS_describeDBClusters, bind, emit. cbv beta iota.
    rewrite Hd. simpl. discriminate.
  - intros _. exists dbCluster.
    destruct (selectDatabase_start w inputs clusterArn secretArn AWS c _ Hd)
      as [Hctx [rest Htrace]].
    split; [now rewrite Hctx|].
    rewrite Htrace. right; right; now left.
Qed.

End ResultFacts.

Section ResultTheorem.
Import Meta Walkthrough.

(** X13. The record a successful run returns describes what the run
    asked the provider: a statement was executed against the returned
    cluster ARN with the returned secret ARN, no statement and no
    single-cluster description of the run concerns any other cluster or
    secret, and [context.isPostgres] holds the classification the executed
    statement was built for. *)
Theorem serviceWalkthrough_result_matches_calls
    (w : World) (budget : nat) (defaultValuesFilename : string)
    (datasourceMetadata : DatasourceMetadata) (ctx : Context)
    (result : WalkthroughResult) :
  let r := serviceWalkthrough w budget defaultValuesFilename datasourceMetadata ctx in
  outcome r = Returned result ->
  (exists isPg,
     isPostgres (context r) = Some isPg
     /\ In (ExecuteStatement {| config_region := region result |}
              {| secretArn := secretStoreArn result;
                 resourceArn := dbClusterArn result;
                 sql := if isPg then "SELECT datname FROM pg_database;"
                        else "show databases" |})
           (trace r))
  /\ (forall aws params, In (ExecuteStatement aws params) (trace r) ->
        resourceArn params = dbClusterArn result
        /\ secretArn params = secretStoreArn result)
  /\ (forall aws id, In (DescribeDBClusters aws (Some id)) (trace r) ->
        id = dbClusterArn result).
Proof.
  intros r Hres. subst r. unfold serviceWalkthrough in *.
  apply bind_returned_parts in Hres as [api0 [_ [Hres [Ht1 Hc1]]]].
  rewrite Ht1, Hc1. clear Ht1 Hc1.
  pose proof (never_findApi isDatabaseCall (fun _ => eq_refl) (fun _ _ => eq_refl) ctx)
    as Hn1.
  set (c1 := context (findApi ctx)) in *.
  apply bind_returned_parts in Hres as [reg [_ [Hres [Ht2 Hc2]]]].
  rewrite Ht2, Hc2. clear Ht2 Hc2.
  pose proof (never_promptWalkthroughQuestion w isDatabaseCall
                (inputs datasourceMetadata) 0
                (map Some (availableRegions datasourceMetadata))
                (fun _ => eq_refl) c1) as Hn2.
  set (c2 := context (promptWalkthroughQuestion w _ 0 _ c1)) in *.
  apply bind_returned_parts in Hres as [AWS0 [_ [Hres [Ht3 Hc3]]]].
  rewrite Ht3, Hc3. clear Ht3 Hc3.
  assert (Hn3 : existsb isDatabaseCall (trace (getAwsClient w "list" c2)) = false).
  { assert (Hn : never isDatabaseCall (getAwsClient w "list"))
      by (unfold getAwsClient, getConfiguredAWSClient_call; walk).
    apply Hn. }
  set (c3 := context (getAwsClient w "list" c2)) in *.
  apply bind_returned_parts in Hres as [AWS [HAWS [Hres [Ht4 Hc4]]]].
  rewrite Ht4, Hc4. clear Ht4 Hc4.
  assert (Hn4 : existsb isDatabaseCall (trace (AWS_config_update AWS0 reg c3)) = false)
    by reflexivity.
  injection HAWS as <-.
  set (c4 := context (AWS_config_update AWS0 reg c3)) in *.
  apply bind_returned_parts in Hres as [cl [_ [Hres [Ht5 Hc5]]]].
  rewrite Ht5, Hc5. clear Ht5 Hc5.
  pose proof (never_database_selectCluster w (inputs datasourceMetadata)
                {| config_region := reg |} c4) as Hn5.
  set (c5 := context (selectCluster w _ _ c4)) in *.
  apply bind_returned_parts in Hres as [arn [_ [Hres [Ht6 Hc6]]]].
  rewrite Ht6, Hc6. clear Ht6 Hc6.
  pose proof (never_database_getSecretStoreArn w budget (inputs datasourceMetadata)
                (clusterResourceId cl) {| config_region := reg |} c5) as Hn6.
  set (c6 := context (getSecretStoreArn w budget _ _ _ c5)) in *.
  apply bind_returned_parts in Hres as [db [Hdb [Hres [Ht7 Hc7]]]].
  rewrite Ht7, Hc7. clear Ht7 Hc7.
  injection Hres as <-. cbn [ret trace context region dbClusterArn secretStoreArn].
  rewrite List.app_nil_r.
  pose proof (concerns_selectDatabase w (inputs datasourceMetadata)
                (selectedClusterArn cl) arn {| config_region := reg |} c6) as Hdbcalls.
  assert (Hall : forall e,
             In e (trace (findApi ctx)
                   ++ trace (promptWalkthroughQuestion w (inputs datasourceMetadata) 0
                               (map Some (availableRegions datasourceMetadata)) c1)
                   ++ trace (getAwsClient w "list" c2)
                   ++ trace (AWS_config_update AWS0 reg c3)
                   ++ trace (selectCluster w (inputs datasourceMetadata)
                               {| config_region := reg |} c4)
                   ++ trace (getSecretStoreArn w budget (inputs datasourceMetadata)
                               (clusterResourceId cl) {| config_region := reg |} c5)
                   ++ trace (selectDatabase w (inputs datasourceMetadata)
                               (selectedClusterArn cl) arn {| config_region := reg |} c6)) ->
             concerns (selectedClusterArn cl) arn e).
  { intros e He.
    repeat (apply in_app_or in He as [He|He];
            [ match goal with
              | Hn : existsb isDatabaseCall ?l = false, Hin : In e ?l |- _ =>
                  apply concerns_quiet; exact (existsb_false_In _ _ _ Hn Hin)
              end |]).
    exact (Hdbcalls e He). }
  split; [|split].
  - destruct (selectDatabase_returned_executed w _ _ _ _ _ _ Hdb) as [dbc [Hctx Hin]].
    exists (classify dbc). split; [exact Hctx|].
    repeat (apply in_or_app; right). exact Hin.
  - intros aws params Hin. exact (Hall _ Hin).
  - intros aws id Hin. exact (Hall _ Hin).
Qed.

Lemma serviceWalkthrough_result_matches_calls_witness :
  let r := serviceWalkthrough Sample.world 1 "defaults.js" Sample.datasourceMetadata
             (Sample.contextWith [("blog", Sample.appsync)]) in
  exists isPg,
    isPostgres (context r) = Some isPg
    /\ In (ExecuteStatement Sample.sampleAWS
             {| secretArn := Some (ARN Sample.clusterSecret);
                resourceArn := DBClusterArn Sample.cluster;
                sql := if isPg then "SELECT datname FROM pg_database;"
                       else "show databases" |})
          (trace r).
Proof.
  intros r.
  destruct (serviceWalkthrough_result_matches_calls Sample.world 1 "defaults.js"
              Sample.datasourceMetadata (Sample.contextWith [("blog", Sample.appsync)])
              _ eq_refl) as [H _].
  exact H.
Defined.

End ResultTheorem.
